(** * BuzzyNotes license server: key derivation, license store and HTTP handlers

    A shallow embedding of [scripts/license-api.js], [scripts/database.js]
    and [scripts/stripe-webhook.js], and the properties of the license
    protocol settled against it. *)

From Stdlib Require Import ZArith List String Ascii Bool Arith Lia Permutation.
Import ListNotations.

Open Scope string_scope.
Open Scope list_scope.
Open Scope nat_scope.

(** ** JavaScript strings

    A JavaScript string is modelled by a [string] whose characters are the
    UTF-16 code units below 256 (ASCII and Latin-1).  On that domain the
    definitions below are the ECMAScript ones. *)

Module Js.

Definition code (c : ascii) : nat := nat_of_ascii c.

(** [String.prototype.toLowerCase]: A-Z, and in Latin-1 U+00C0..U+00DE
    except the multiplication sign U+00D7, move up by 32. *)
Definition lower_char (c : ascii) : ascii :=
  let n := code c in
  if ((65 <=? n) && (n <=? 90)) || ((192 <=? n) && (n <=? 222) && negb (n =? 215))
  then ascii_of_nat (n + 32) else c.

Fixpoint toLowerCase (s : string) : string :=
  match s with
  | EmptyString => EmptyString
  | String c s' => String (lower_char c) (toLowerCase s')
  end.

(** [String.prototype.toUpperCase] on ASCII text (the only text the server
    upper-cases is a hexadecimal digest). *)
Definition upper_char (c : ascii) : ascii :=
  let n := code c in
  if (97 <=? n) && (n <=? 122) then ascii_of_nat (n - 32) else c.

Fixpoint toUpperCase (s : string) : string :=
  match s with
  | EmptyString => EmptyString
  | String c s' => String (upper_char c) (toUpperCase s')
  end.

(** [s.substring(from, to)]: both indices are clamped to the length and
    swapped when out of order. *)
Definition substring (s : string) (from to : nat) : string :=
  String.substring (Nat.min from to) (Nat.max from to - Nat.min from to) s.

(** [s.charAt(i)]: the empty string when [i] is out of range. *)
Definition charAt (s : string) (i : nat) : string :=
  match String.get i s with
  | Some c => String c EmptyString
  | None => EmptyString
  end.

(** The regular-expression dot rejects the line terminators (LF and CR are
    the ones below 256). *)
Definition is_line_terminator (c : ascii) : bool :=
  (code c =? 10) || (code c =? 13).

Definition flush (cur : string) : list string :=
  match cur with
  | EmptyString => []
  | _ => [cur]
  end.

(** The successive matches of [/.{1,4}/g]: greedy groups of at most four
    characters, a line terminator closing the group before it. *)
Fixpoint dot_groups (cur : string) (s : string) : list string :=
  match s with
  | EmptyString => flush cur
  | String c s' =>
      if is_line_terminator c then flush cur ++ dot_groups EmptyString s'
      else if String.length cur =? 4 then cur :: dot_groups (String c EmptyString) s'
      else dot_groups (cur ++ String c EmptyString)%string s'
  end.

(** [s.match(/.{1,4}/g)]: [None] stands for JavaScript's [null]. *)
Definition match_dot_1_4_g (s : string) : option (list string) :=
  match dot_groups EmptyString s with
  | [] => None
  | gs => Some gs
  end.

(** [parts.join(sep)]. *)
Definition join (sep : string) (parts : list string) : string :=
  String.concat sep parts.

(** The UTF-8 encoding [crypto]'s [update(string)] feeds to the digest. *)
Definition utf8_char (c : ascii) : list Z :=
  let n := Z.of_nat (code c) in
  if (n <? 128)%Z then [n]
  else [Z.lor 192 (Z.shiftr n 6); Z.lor 128 (Z.land n 63)].

Fixpoint utf8 (s : string) : list Z :=
  match s with
  | EmptyString => []
  | String c s' => utf8_char c ++ utf8 s'
  end.

End Js.

(** ** MD5 (RFC 1321), the digest behind [crypto.createHash('md5')]

    Words are 32-bit integers in [Z], the wrap-around written out with
    [Z.land _ mask32]. *)

Module MD5.

Open Scope Z_scope.

Definition mask32 : Z := 0xFFFFFFFF.

Definition add32 (a b : Z) : Z := Z.land (a + b) mask32.

Definition not32 (a : Z) : Z := Z.lxor a mask32.

Definition rotl32 (x c : Z) : Z :=
  Z.land (Z.lor (Z.shiftl x c) (Z.shiftr x (32 - c))) mask32.

Definition shifts : list Z :=
  [7; 12; 17; 22; 7; 12; 17; 22; 7; 12; 17; 22; 7; 12; 17; 22;
   5; 9; 14; 20; 5; 9; 14; 20; 5; 9; 14; 20; 5; 9; 14; 20;
   4; 11; 16; 23; 4; 11; 16; 23; 4; 11; 16; 23; 4; 11; 16; 23;
   6; 10; 15; 21; 6; 10; 15; 21; 6; 10; 15; 21; 6; 10; 15; 21].

Definition sines : list Z :=
  [0xd76aa478; 0xe8c7b756; 0x242070db; 0xc1bdceee;
   0xf57c0faf; 0x4787c62a; 0xa8304613; 0xfd469501;
   0x698098d8; 0x8b44f7af; 0xffff5bb1; 0x895cd7be;
   0x6b901122; 0xfd987193; 0xa679438e; 0x49b40821;
   0xf61e2562; 0xc040b340; 0x265e5a51; 0xe9b6c7aa;
   0xd62f105d; 0x02441453; 0xd8a1e681; 0xe7d3fbc8;
   0x21e1cde6; 0xc33707d6; 0xf4d50d87; 0x455a14ed;
   0xa9e3e905; 0xfcefa3f8; 0x676f02d9; 0x8d2a4c8a;
   0xfffa3942; 0x8771f681; 0x6d9d6122; 0xfde5380c;
   0xa4beea44; 0x4bdecfa9; 0xf6bb4b60; 0xbebfbc70;
   0x289b7ec6; 0xeaa127fa; 0xd4ef3085; 0x04881d05;
   0xd9d4d039; 0xe6db99e5; 0x1fa27cf8; 0xc4ac5665;
   0xf4292244; 0x432aff97; 0xab9423a7; 0xfc93a039;
   0x655b59c3; 0x8f0ccc92; 0xffeff47d; 0x85845dd1;
   0x6fa87e4f; 0xfe2ce6e0; 0xa3014314; 0x4e0811a1;
   0xf7537e82; 0xbd3af235; 0x2ad7d2bb; 0xeb86d391].

(** The [n] low bytes of [x], least significant first. *)
Fixpoint le_bytes (n : nat) (x : Z) : list Z :=
  match n with
  | O => []
  | S n' => (x mod 256) :: le_bytes n' (x / 256)
  end.

Fixpoint le_word (bs : list Z) : Z :=
  match bs with
  | [] => 0
  | b :: bs' => b + 256 * le_word bs'
  end.

(** Padding: a 1 bit, zeros up to 56 modulo 64, then the bit length on
    eight bytes. *)
Definition pad (msg : list Z) : list Z :=
  let len := Z.of_nat (List.length msg) in
  msg ++ [0x80] ++ repeat 0 (Z.to_nat ((55 - len) mod 64))
      ++ le_bytes 8 ((8 * len) mod 2 ^ 64).

(** The [n] first groups of [k] elements. *)
Fixpoint groups {A} (k n : nat) (l : list A) : list (list A) :=
  match n with
  | O => []
  | S n' => firstn k l :: groups k n' (skipn k l)
  end.

Definition block_words (block : list Z) : list Z :=
  map le_word (groups 4 16 block).

Record state : Type := mkState { sa : Z; sb : Z; sc : Z; sd : Z }.

Definition init : state :=
  mkState 0x67452301 0xefcdab89 0x98badcfe 0x10325476.

Definition round_fn (i : nat) (b c d : Z) : Z :=
  if (i <? 16)%nat then Z.lor (Z.land b c) (Z.land (not32 b) d)
  else if (i <? 32)%nat then Z.lor (Z.land d b) (Z.land (not32 d) c)
  else if (i <? 48)%nat then Z.lxor b (Z.lxor c d)
  else Z.lxor c (Z.lor b (not32 d)).

Definition round_idx (i : nat) : nat :=
  if (i <? 16)%nat then i
  else if (i <? 32)%nat then (5 * i + 1) mod 16
  else if (i <? 48)%nat then (3 * i + 5) mod 16
  else (7 * i) mod 16.

Definition step (m : list Z) (st : state) (i : nat) : state :=
  let f := add32 (add32 (add32 (round_fn i (sb st) (sc st) (sd st)) (sa st))
                        (nth i sines 0))
                 (nth (round_idx i) m 0) in
  mkState (sd st) (add32 (sb st) (rotl32 f (nth i shifts 0))) (sb st) (sc st).

Definition compress (st : state) (block : list Z) : state :=
  let st' := fold_left (step (block_words block)) (seq 0 64) st in
  mkState (add32 (sa st) (sa st')) (add32 (sb st) (sb st'))
          (add32 (sc st) (sc st')) (add32 (sd st) (sd st')).

Definition digest (msg : list Z) : list Z :=
  let padded := pad msg in
  let st := fold_left compress
              (groups 64 (List.length padded / 64) padded) init in
  le_bytes 4 (sa st) ++ le_bytes 4 (sb st) ++ le_bytes 4 (sc st)
    ++ le_bytes 4 (sd st).

Definition hex_digit (n : Z) : ascii :=
  match String.get (Z.to_nat n) "0123456789abcdef" with
  | Some c => c
  | None => "0"%char
  end.

(** [digest('hex')]: two lower-case hexadecimal digits per byte. *)
Fixpoint hex (bs : list Z) : string :=
  match bs with
  | [] => EmptyString
  | b :: bs' => String (hex_digit (b / 16)) (String (hex_digit (b mod 16)) (hex bs'))
  end.

Definition md5_hex (s : string) : string := hex (digest (Js.utf8 s)).

End MD5.

(** ** Key derivation ([license-api.js], [generateEmailBasedLicense]) *)

(** [None] stands for the [TypeError] of calling [join] on [null]. *)
Definition generateEmailBasedLicense (email : string) : option string :=
  let hash := MD5.md5_hex (Js.toLowerCase email) in
  let chars := Js.substring (Js.toUpperCase hash) 0 16 in
  match Js.match_dot_1_4_g chars with
  | Some groups => Some (Js.join "-" groups)
  | None => None
  end.

(** The derivation in the words of the specification: the hexadecimal
    digest of the lower-cased email, upper-cased, cut to its first sixteen
    characters and written as four groups of four joined by dashes. *)
Definition derive_reference (email : string) : string :=
  let h := Js.substring (Js.toUpperCase (MD5.md5_hex (Js.toLowerCase email))) 0 16 in
  (Js.substring h 0 4 ++ "-" ++ Js.substring h 4 8 ++ "-"
    ++ Js.substring h 8 12 ++ "-" ++ Js.substring h 12 16)%string.

Fixpoint all_chars (p : ascii -> bool) (s : string) : bool :=
  match s with
  | EmptyString => true
  | String c s' => p c && all_chars p s'
  end.

(** The alphabet [A-F0-9-] of a derived key. *)
Definition is_key_char (c : ascii) : bool :=
  let n := Js.code c in
  ((48 <=? n) && (n <=? 57)) || ((65 <=? n) && (n <=? 70)) || (n =? 45).

(** The sixteen characters the key is cut from, for a digest state. *)
Definition key_chars (st : MD5.state) : string :=
  Js.substring
    (Js.toUpperCase
       (MD5.hex (MD5.le_bytes 4 (MD5.sa st) ++ MD5.le_bytes 4 (MD5.sb st)
                 ++ MD5.le_bytes 4 (MD5.sc st) ++ MD5.le_bytes 4 (MD5.sd st))))
    0 16.


(** ** Regular expressions, by derivatives

    Enough of the regular-expression language for the email pattern of
    [license-api.js]; a pattern anchored by [^] and [$] is tested against
    the whole string. *)

Module Regex.

Inductive re : Type :=
  | Void
  | Eps
  | Class (p : ascii -> bool)
  | Cat (r1 r2 : re)
  | Alt (r1 r2 : re)
  | Star (r : re).

Definition Plus (r : re) : re := Cat r (Star r).

Fixpoint nullable (r : re) : bool :=
  match r with
  | Void => false
  | Eps => true
  | Class _ => false
  | Cat r1 r2 => nullable r1 && nullable r2
  | Alt r1 r2 => nullable r1 || nullable r2
  | Star _ => true
  end.

Fixpoint deriv (c : ascii) (r : re) : re :=
  match r with
  | Void => Void
  | Eps => Void
  | Class p => if p c then Eps else Void
  | Cat r1 r2 =>
      Alt (Cat (deriv c r1) r2) (if nullable r1 then deriv c r2 else Void)
  | Alt r1 r2 => Alt (deriv c r1) (deriv c r2)
  | Star r1 => Cat (deriv c r1) (Star r1)
  end.

Fixpoint matches (r : re) (s : string) : bool :=
  match s with
  | EmptyString => nullable r
  | String c s' => matches (deriv c r) s'
  end.

(** No string matches a dead expression. *)
Fixpoint dead (r : re) : bool :=
  match r with
  | Void => true
  | Eps | Class _ | Star _ => false
  | Cat r1 r2 => dead r1 || dead r2
  | Alt r1 r2 => dead r1 && dead r2
  end.

(** Every character class of [r] lies inside [q]. *)
Fixpoint classes_within (q : ascii -> bool) (r : re) : Prop :=
  match r with
  | Void | Eps => True
  | Class p => forall c, p c = true -> q c = true
  | Cat r1 r2 | Alt r1 r2 => classes_within q r1 /\ classes_within q r2
  | Star r1 => classes_within q r1
  end.

End Regex.

(** [\s] on code units below 256: TAB, LF, VT, FF, CR, space and the
    no-break space. *)
Definition is_js_space (c : ascii) : bool :=
  let n := Js.code c in
  ((9 <=? n) && (n <=? 13)) || (n =? 32) || (n =? 160).

Definition is_char (a : ascii) (c : ascii) : bool := Ascii.eqb a c.

(** Any character but the space U+0020. *)
Definition not_blank (c : ascii) : bool := negb (is_char " " c).

(** [[^\s@]]. *)
Definition not_space_at (c : ascii) : bool :=
  negb (is_js_space c) && negb (is_char "@" c).

(** [/^[^\s@]+@[^\s@]+\.[^\s@]+$/]. *)
Definition emailRegex : Regex.re :=
  Regex.Cat (Regex.Plus (Regex.Class not_space_at))
    (Regex.Cat (Regex.Class (is_char "@"))
       (Regex.Cat (Regex.Plus (Regex.Class not_space_at))
          (Regex.Cat (Regex.Class (is_char "."))
             (Regex.Plus (Regex.Class not_space_at))))).

Definition emailRegex_test (email : string) : bool :=
  Regex.matches emailRegex email.

(** ** JSON values and HTTP responses *)

#[local] Set Warnings "-register-all".

Inductive json : Type :=
  | JNull
  | JBool (b : bool)
  | JNum (n : Z)
  | JStr (s : string)
  | JDate (t : nat)
  | JArr (items : list json)
  | JObj (fields : list (string * json)).

(** JavaScript truthiness, as used by [!value]. *)
Definition truthy (v : json) : bool :=
  match v with
  | JNull => false
  | JBool b => b
  | JNum n => negb (Z.eqb n 0)
  | JStr s => negb (String.eqb s "")
  | JDate _ | JArr _ | JObj _ => true
  end.

Record response : Type := mkResponse { res_status : nat; res_body : json }.

(** [res.status(code).json({...})]; [res.json] alone answers 200. *)
Definition res_json (code : nat) (fields : list (string * json)) : response :=
  mkResponse code (JObj fields).

Fixpoint assoc (name : string) (fields : list (string * json)) : option json :=
  match fields with
  | [] => None
  | (k, v) :: rest => if String.eqb k name then Some v else assoc name rest
  end.

(** The top-level field [name] of a response body. *)
Definition field (name : string) (r : response) : option json :=
  match res_body r with
  | JObj fields => assoc name fields
  | _ => None
  end.

(** ** The store ([database.js], [initializeDatabase])

    Two tables.  [users] has a serial primary key and a unique
    [license_key], and no constraint on [email]; [user_data] has a serial
    primary key, a foreign key to [users(license_key)] that cascades on
    delete, and no other unique constraint (its indexes on [license_key]
    and on [(license_key, data_type)] are plain ones).

    A table is the list of its rows in the order a [SELECT] without
    [ORDER BY] returns them, so that [rows[0]] is the first match: an
    insert adds a row at the end, and the update of an upsert writes a new
    version of the row, which comes after the rows left untouched.  The
    update by email is written in place: it touches every row of the email
    at once and keeps their order, which is all a lookup by email or by
    key can see.  Timestamps are natural numbers. *)

Module Users.
Record row : Type := mkRow {
  id : nat;
  license_key : string;
  email : string;
  status : string;
  plan_type : string;
  created_at : nat;
  updated_at : nat
}.
End Users.

Module UserData.
Record row : Type := mkRow {
  id : nat;
  license_key : string;
  data_type : string;
  content : json;
  created_at : nat;
  updated_at : nat
}.
End UserData.

Record database : Type := mkDatabase {
  users : list Users.row;
  users_id_seq : nat;
  user_data : list UserData.row;
  user_data_id_seq : nat
}.

Definition empty_db : database := mkDatabase [] 0 [] 0.

Definition users_unique : list (list string) := [["id"]; ["license_key"]].

Definition user_data_unique : list (list string) := [["id"]].

(** What the environment contributes to one round trip to the store: the
    value of [CURRENT_TIMESTAMP], and whether the pool serves the call
    ([up = false] is an outage: [pool.connect] or [client.query] rejects). *)
Record env : Type := mkEnv { now : nat; up : bool }.

Inductive pg_error : Type :=
  | ConnectionError
  | UniqueViolation
  | ForeignKeyViolation
  | StringDataRightTruncation
  | CharacterNotInRepertoire
  | InvalidColumnReference.

(** A thrown JavaScript value. *)
Inductive exn : Type :=
  | PgError (e : pg_error)
  | Error (message : string)
  | TypeError.

(** [error.code]. *)
Definition error_code (e : exn) : option string :=
  match e with
  | PgError ConnectionError => Some "ECONNREFUSED"
  | PgError UniqueViolation => Some "23505"
  | PgError ForeignKeyViolation => Some "23503"
  | PgError StringDataRightTruncation => Some "22001"
  | PgError CharacterNotInRepertoire => Some "22021"
  | PgError InvalidColumnReference => Some "42P10"
  | Error _ | TypeError => None
  end.

(** [error.code === code]. *)
Definition has_code (e : exn) (code : string) : bool :=
  match error_code e with
  | Some c => String.eqb c code
  | None => false
  end.

Inductive result (A : Type) : Type :=
  | Ok (a : A)
  | Throw (e : exn).

Arguments Ok {A} a.
Arguments Throw {A} e.

(** A text parameter may not hold U+0000: the store refuses to bind it. *)
Definition no_nul (s : string) : bool :=
  all_chars (fun c => negb (Js.code c =? 0)) s.

(** Storing into a [VARCHAR(n)] column: a longer value is an error unless
    the excess is spaces only, which are cut. *)
Definition varchar (n : nat) (s : string) : result string :=
  if String.length s <=? n then Ok s
  else if all_chars (is_char " ") (String.substring n (String.length s - n) s)
       then Ok (String.substring 0 n s)
       else Throw (PgError StringDataRightTruncation).

(** [ON CONFLICT (columns)] needs a unique index on exactly these columns,
    in any order. *)
Definition same_columns (a b : list string) : bool :=
  forallb (fun x => existsb (String.eqb x) b) a
  && forallb (fun x => existsb (String.eqb x) a) b.

Definition has_arbiter (target : list string) (unique : list (list string)) : bool :=
  existsb (same_columns target) unique.

Definition has_key (k : string) (rows : list Users.row) : bool :=
  existsb (fun r => String.eqb (Users.license_key r) k) rows.

Definition with_users (db : database) (rows : list Users.row) (seq : nat) : database :=
  mkDatabase rows seq (user_data db) (user_data_id_seq db).

(** *** The statements the server issues *)

(** [SELECT ... FROM users WHERE email = $1]. *)
Definition select_users_by_email (en : env) (email : string) (db : database)
  : result (list Users.row) :=
  if up en then
    if no_nul email
    then Ok (filter (fun r => String.eqb (Users.email r) email) (users db))
    else Throw (PgError CharacterNotInRepertoire)
  else Throw (PgError ConnectionError).

(** [SELECT ... FROM users WHERE license_key = $1 AND status = $2].  A
    key with U+0000 finds no row here; the store refuses it, which
    [verifyLicense] catches and answers as for no row, and on which
    [saveUserData] throws as it does for no row. *)
Definition select_users_by_key_status (en : env) (key st : string) (db : database)
  : result (list Users.row) :=
  if up en
  then Ok (filter (fun r => String.eqb (Users.license_key r) key
                            && String.eqb (Users.status r) st) (users db))
  else Throw (PgError ConnectionError).

(** [INSERT INTO users (license_key, email, status, plan_type)
     VALUES ($1, $2, 'active', 'premium') RETURNING *].  A parameter with
    U+0000 is refused when it is bound and one too long for its column
    when the statement is planned, both before the sequence moves; the
    sequence has moved when the key turns out to be taken. *)
Definition insert_user (en : env) (key email : string) (db : database)
  : database * result Users.row :=
  if up en then
    if no_nul key && no_nul email then
      match varchar 255 key, varchar 255 email with
      | Ok k, Ok e =>
          let id := S (users_id_seq db) in
          if has_key k (users db)
          then (with_users db (users db) id, Throw (PgError UniqueViolation))
          else
            let r := Users.mkRow id k e "active" "premium" (now en) (now en) in
            (with_users db (users db ++ [r]) id, Ok r)
      | Throw x, _ | _, Throw x => (db, Throw x)
      end
    else (db, Throw (PgError CharacterNotInRepertoire))
  else (db, Throw (PgError ConnectionError)).

Definition rebind (en : env) (k e : string) (r : Users.row) : Users.row :=
  if String.eqb (Users.license_key r) k
  then Users.mkRow (Users.id r) (Users.license_key r) e "active"
         (Users.plan_type r) (Users.created_at r) (now en)
  else r.

Definition has_license_key (k : string) (r : Users.row) : bool :=
  String.eqb (Users.license_key r) k.

(** [INSERT INTO users ... VALUES ($1, $2, 'active', 'premium')
     ON CONFLICT (license_key) DO UPDATE SET email = EXCLUDED.email,
     status = 'active', updated_at = CURRENT_TIMESTAMP RETURNING *].
    The parameters are bound and the conflict target is resolved against
    the unique indexes, with the refusals of the plain insert; on a
    conflict the row of the key is written anew, after the rows of the
    other keys. *)
Definition upsert_user (en : env) (key email : string) (db : database)
  : database * result Users.row :=
  if up en then
    if no_nul key && no_nul email then
      if has_arbiter ["license_key"] users_unique then
        match varchar 255 key, varchar 255 email with
        | Ok k, Ok e =>
            let id := S (users_id_seq db) in
            match find (has_license_key k) (users db) with
            | Some old =>
                (with_users db
                   (filter (fun r => negb (has_license_key k r)) (users db)
                    ++ map (rebind en k e) (filter (has_license_key k) (users db)))
                   id,
                 Ok (rebind en k e old))
            | None =>
                let r := Users.mkRow id k e "active" "premium" (now en) (now en) in
                (with_users db (users db ++ [r]) id, Ok r)
            end
        | Throw x, _ | _, Throw x => (db, Throw x)
        end
      else (db, Throw (PgError InvalidColumnReference))
    else (db, Throw (PgError CharacterNotInRepertoire))
  else (db, Throw (PgError ConnectionError)).

(** [UPDATE users SET status = $1, updated_at = CURRENT_TIMESTAMP
     WHERE email = $2]. *)
Definition update_status_by_email (en : env) (st email : string) (db : database)
  : database * result unit :=
  if up en then
    if no_nul st && no_nul email then
      match varchar 50 st with
      | Ok st' =>
          (with_users db
             (map (fun r =>
                     if String.eqb (Users.email r) email
                     then Users.mkRow (Users.id r) (Users.license_key r)
                            (Users.email r) st' (Users.plan_type r)
                            (Users.created_at r) (now en)
                     else r) (users db))
             (users_id_seq db), Ok tt)
      | Throw x => (db, Throw x)
      end
    else (db, Throw (PgError CharacterNotInRepertoire))
  else (db, Throw (PgError ConnectionError)).

(** [DELETE FROM users WHERE email = $1], cascading to [user_data]. *)
Definition delete_users_by_email (en : env) (email : string) (db : database)
  : database * result unit :=
  if up en then
    if no_nul email then
      let kept := filter (fun r => negb (String.eqb (Users.email r) email)) (users db) in
      (mkDatabase kept (users_id_seq db)
         (filter (fun d => has_key (UserData.license_key d) kept) (user_data db))
         (user_data_id_seq db), Ok tt)
    else (db, Throw (PgError CharacterNotInRepertoire))
  else (db, Throw (PgError ConnectionError)).

Definition same_slot (k t : string) (d : UserData.row) : bool :=
  String.eqb (UserData.license_key d) k && String.eqb (UserData.data_type d) t.

Definition overwrite (en : env) (k t : string) (c : json) (d : UserData.row)
  : UserData.row :=
  if same_slot k t d
  then UserData.mkRow (UserData.id d) (UserData.license_key d)
         (UserData.data_type d) c (UserData.created_at d) (now en)
  else d.

(** [INSERT INTO user_data (license_key, data_type, content)
     VALUES ($1, $2, $3) ON CONFLICT (license_key, data_type) DO UPDATE SET
     content = EXCLUDED.content, updated_at = CURRENT_TIMESTAMP
     RETURNING id, created_at, updated_at].  The parameters are bound,
    and then the conflict target is resolved against the unique indexes of
    the table, before anything is executed. *)
Definition upsert_user_data (en : env) (key dtype : string) (c : json)
    (db : database) : database * result UserData.row :=
  if up en then
    if no_nul key && no_nul dtype then
      if has_arbiter ["license_key"; "data_type"] user_data_unique then
        match varchar 255 key, varchar 50 dtype with
        | Ok k, Ok t =>
            let id := S (user_data_id_seq db) in
            let keep rows := mkDatabase (users db) (users_id_seq db) rows id in
            match find (same_slot k t) (user_data db) with
            | Some old =>
                (keep (filter (fun d => negb (same_slot k t d)) (user_data db)
                       ++ map (overwrite en k t c)
                            (filter (same_slot k t) (user_data db))),
                 Ok (overwrite en k t c old))
            | None =>
                if has_key k (users db) then
                  let d := UserData.mkRow id k t c (now en) (now en) in
                  (keep (user_data db ++ [d]), Ok d)
                else (keep (user_data db), Throw (PgError ForeignKeyViolation))
            end
        | Throw x, _ | _, Throw x => (db, Throw x)
        end
      else (db, Throw (PgError InvalidColumnReference))
    else (db, Throw (PgError CharacterNotInRepertoire))
  else (db, Throw (PgError ConnectionError)).

(** The latest row, for [ORDER BY updated_at DESC LIMIT 1]. *)
Fixpoint latest (rows : list UserData.row) : option UserData.row :=
  match rows with
  | [] => None
  | d :: rest =>
      match latest rest with
      | Some d' =>
          if UserData.updated_at d <? UserData.updated_at d' then Some d' else Some d
      | None => Some d
      end
  end.

(** [SELECT content, updated_at FROM user_data WHERE license_key = $1 AND
     data_type = $2 ORDER BY updated_at DESC LIMIT 1]; its caller catches
    every error of the store and answers as for no row. *)
Definition select_user_data (en : env) (key dtype : string) (db : database)
  : result (option UserData.row) :=
  if up en
  then Ok (latest (filter (same_slot key dtype) (user_data db)))
  else Throw (PgError ConnectionError).

(** *** The functions of [database.js] *)

Record license_result : Type := mkLicenseResult {
  valid : bool;
  user : option Users.row
}.

(** An error of the store is caught and reported as an invalid license. *)
Definition verifyLicense (en : env) (licenseKey : string) (db : database)
  : license_result :=
  match select_users_by_key_status en licenseKey "active" db with
  | Ok (r :: _) => mkLicenseResult true (Some r)
  | Ok [] => mkLicenseResult false None
  | Throw _ => mkLicenseResult false None
  end.

(** A value of a JSON body as the code can observe it: a string, or
    another value (number, boolean, array, object) known by its
    truthiness, by [String(value)] and by the text that is bound for it as
    a parameter of a statement. *)
Inductive value : Type :=
  | Str (s : string)
  | Other (truth : bool) (as_string : string) (bound : string).

Definition value_truthy (v : value) : bool :=
  match v with
  | Str s => negb (String.eqb s "")
  | Other t _ _ => t
  end.

Definition value_string (v : value) : string :=
  match v with
  | Str s => s
  | Other _ s _ => s
  end.

Definition value_bound (v : value) : string :=
  match v with
  | Str s => s
  | Other _ _ b => b
  end.

Definition is_string (v : value) : bool :=
  match v with
  | Str _ => true
  | Other _ _ _ => false
  end.

(** After the upsert the function logs [licenseKey.substring(0, 8)], which
    throws for a key that is not a string, the row being written already;
    errors are logged and thrown again. *)
Definition activateLicense (en : env) (licenseKey email : value) (db : database)
  : database * result Users.row :=
  match upsert_user en (value_bound licenseKey) (value_bound email) db with
  | (db', Ok u) =>
      if is_string licenseKey then (db', Ok u) else (db', Throw TypeError)
  | (db', Throw x) => (db', Throw x)
  end.

Definition saveUserData (e1 e2 : env) (licenseKey dataType : string)
    (content : json) (db : database) : database * result UserData.row :=
  match select_users_by_key_status e1 licenseKey "active" db with
  | Ok [] => (db, Throw (Error "Invalid or inactive license"))
  | Ok (_ :: _) => upsert_user_data e2 licenseKey dataType content db
  | Throw x => (db, Throw x)
  end.

(** The content and its modification time, or [None] for [null]; an error
    of the store is caught and reported as [null]. *)
Definition getUserData (en : env) (licenseKey dataType : string) (db : database)
  : option (json * nat) :=
  match select_user_data en licenseKey dataType db with
  | Ok (Some d) => Some (UserData.content d, UserData.updated_at d)
  | Ok None => None
  | Throw _ => None
  end.

(** ** The routes of [license-api.js]

    A request field that may be missing is an [option]; an empty string is
    falsy like a missing one.  Fields are strings, JSON values where the
    route inspects their type or stores them, and [value]s for
    activate-license, whose fields reach the store and [substring] with no
    test of their type.  Every route runs inside [try]/[catch]: a thrown
    value ends in the route's error response. *)

Definition present (field : option string) : bool :=
  match field with
  | Some s => negb (String.eqb s "")
  | None => false
  end.

Definition user_summary (r : Users.row) : json :=
  JObj [("email", JStr (Users.email r)); ("plan", JStr (Users.plan_type r));
        ("status", JStr (Users.status r)); ("activated", JDate (Users.created_at r))].

(** [POST /api/verify-license]. *)
Definition post_api_verify_license (en : env) (licenseKey : option json)
    (db : database) : response :=
  match licenseKey with
  | Some (JStr key) =>
      if String.eqb key "" then
        res_json 400 [("success", JBool false);
                      ("error", JStr "Invalid license key format")]
      else
        let licenseResult := verifyLicense en key db in
        match valid licenseResult, user licenseResult with
        | true, Some u =>
            res_json 200 [("success", JBool true);
                          ("message", JStr "License is valid");
                          ("user", user_summary u)]
        | true, None =>
            res_json 500 [("success", JBool false);
                          ("error", JStr "Internal server error")]
        | false, _ =>
            res_json 404 [("success", JBool false);
                          ("error", JStr "License not found or inactive")]
        end
  | _ =>
      res_json 400 [("success", JBool false);
                    ("error", JStr "Invalid license key format")]
  end.

(** [POST /api/activate-license]: the route tests that both fields are
    truthy and the pattern on [String(email)], and hands both values to
    [activateLicense]. *)
Definition activate_license_route (en : env) (licenseKey email : option value)
    (db : database) : database * response :=
  match licenseKey, email with
  | Some key, Some em =>
      if negb (value_truthy key) || negb (value_truthy em) then
        (db, res_json 400 [("success", JBool false);
                           ("error", JStr "License key and email are required")])
      else if negb (emailRegex_test (value_string em)) then
        (db, res_json 400 [("success", JBool false);
                           ("error", JStr "Invalid email format")])
      else
        match activateLicense en key em db with
        | (db', Ok u) =>
            (db', res_json 200 [("success", JBool true);
                                ("message", JStr "License activated successfully");
                                ("user", user_summary u)])
        | (db', Throw x) =>
            if has_code x "23505" then
              (db', res_json 409 [("success", JBool false);
                                  ("error", JStr "License already activated")])
            else
              (db', res_json 500 [("success", JBool false);
                                  ("error", JStr "Failed to activate license")])
        end
  | _, _ =>
      (db, res_json 400 [("success", JBool false);
                         ("error", JStr "License key and email are required")])
  end.

(** The route for a body whose two fields are strings. *)
Definition post_api_activate_license (en : env) (licenseKey email : option string)
    (db : database) : database * response :=
  activate_license_route en (option_map Str licenseKey) (option_map Str email) db.

Definition invalid_license : response :=
  res_json 403 [("success", JBool false);
                ("error", JStr "Invalid or inactive license")].

Definition data_type_or_notes (dataType : option string) : string :=
  match dataType with
  | Some t => t
  | None => "notes"
  end.

(** [POST /api/sync/upload]: [ev] serves [verifyLicense], [e1] and [e2] the
    two statements of [saveUserData]. *)
Definition post_api_sync_upload (ev e1 e2 : env) (licenseKey dataType : option string)
    (data : option json) (db : database) : database * response :=
  match licenseKey, data with
  | Some key, Some d =>
      if negb (present licenseKey) || negb (truthy d) then
        (db, res_json 400 [("success", JBool false);
                           ("error", JStr "License key and data are required")])
      else if negb (valid (verifyLicense ev key db)) then (db, invalid_license)
      else
        match saveUserData e1 e2 key (data_type_or_notes dataType) d db with
        | (db', Ok row) =>
            (db', res_json 200 [("success", JBool true);
                                ("message", JStr "Data uploaded successfully");
                                ("uploaded_at", JDate (UserData.updated_at row))])
        | (db', Throw _) =>
            (db', res_json 500 [("success", JBool false);
                                ("error", JStr "Failed to upload data")])
        end
  | _, _ =>
      (db, res_json 400 [("success", JBool false);
                         ("error", JStr "License key and data are required")])
  end.

(** [GET /api/sync/download/:licenseKey]: [ev] serves [verifyLicense], [eg]
    serves [getUserData]. *)
Definition get_api_sync_download (ev eg : env) (licenseKey : string)
    (dataType : option string) (db : database) : response :=
  if negb (valid (verifyLicense ev licenseKey db)) then invalid_license
  else
    match getUserData eg licenseKey (data_type_or_notes dataType) db with
    | Some (content, lastModified) =>
        res_json 200 [("success", JBool true); ("data", content);
                      ("last_modified", JDate lastModified)]
    | None =>
        res_json 200 [("success", JBool true); ("data", JNull);
                      ("message", JStr "No data found for this license")]
    end.

(** [POST /api/generate-license]: [e1] serves the lookup, [e2] the update
    or the insert. *)
Definition post_api_generate_license (e1 e2 : env) (email : option json)
    (db : database) : database * response :=
  let failed x :=
    if has_code x "23505" then
      res_json 409 [("success", JBool false);
                    ("error", JStr "License generation conflict. Please try again.")]
    else
      res_json 500 [("success", JBool false);
                    ("error", JStr "Failed to generate license")] in
  match email with
  | Some (JStr em) =>
      if String.eqb em "" then
        (db, res_json 400 [("success", JBool false); ("error", JStr "Email is required")])
      else if negb (emailRegex_test em) then
        (db, res_json 400 [("success", JBool false); ("error", JStr "Invalid email format")])
      else
        match select_users_by_email e1 em db with
        | Throw x => (db, failed x)
        | Ok (u :: _) =>
            if String.eqb (Users.status u) "active" then
              (db, res_json 200 [("success", JBool true);
                                 ("message", JStr "License already exists for this email");
                                 ("licenseKey", JStr (Users.license_key u));
                                 ("action", JStr "existing")])
            else
              match update_status_by_email e2 "active" em db with
              | (db', Ok _) =>
                  (db', res_json 200 [("success", JBool true);
                                      ("message", JStr "License reactivated");
                                      ("licenseKey", JStr (Users.license_key u));
                                      ("action", JStr "reactivated")])
              | (db', Throw x) => (db', failed x)
              end
        | Ok [] =>
            match generateEmailBasedLicense em with
            | None => (db, failed TypeError)
            | Some licenseKey =>
                match insert_user e2 licenseKey em db with
                | (db', Ok newUser) =>
                    (db', res_json 200
                            [("success", JBool true);
                             ("message", JStr "License generated successfully");
                             ("licenseKey", JStr licenseKey);
                             ("action", JStr "created");
                             ("user", JObj [("email", JStr em);
                                            ("plan", JStr "premium");
                                            ("status", JStr "active");
                                            ("created", JDate (Users.created_at newUser))])])
                | (db', Throw x) => (db', failed x)
                end
            end
        end
  | _ => (db, res_json 400 [("success", JBool false); ("error", JStr "Email is required")])
  end.

(** *** [POST /api/request-license]

    The route touches the store twice, with an [await] in between: a
    lookup by email and, when it finds no row, an insert.  The two halves
    are separate definitions, so that requests can also be interleaved. *)

Definition request_failed : response :=
  res_json 500 [("success", JBool false);
                ("error", JStr "Failed to process license request")].

Definition license_found (u : Users.row) : response :=
  res_json 200 [("success", JBool true);
                ("message", JStr "License found for this email");
                ("licenseKey", JStr (Users.license_key u));
                ("status", JStr (Users.status u));
                ("created", JDate (Users.created_at u))].

Definition license_created (licenseKey email : string) (newUser : Users.row)
  : response :=
  res_json 200 [("success", JBool true);
                ("message", JStr "License created successfully");
                ("licenseKey", JStr licenseKey);
                ("user", JObj [("email", JStr email);
                               ("plan", JStr "premium");
                               ("status", JStr "active");
                               ("created", JDate (Users.created_at newUser))])].

(** Validation and lookup: the response, or the email left to insert. *)
Definition request_license_lookup (en : env) (email : option string)
    (db : database) : response + string :=
  match email with
  | Some em =>
      if negb (present email) then
        inl (res_json 400 [("success", JBool false); ("error", JStr "Email is required")])
      else if negb (emailRegex_test em) then
        inl (res_json 400 [("success", JBool false); ("error", JStr "Invalid email format")])
      else
        match select_users_by_email en em db with
        | Throw _ => inl request_failed
        | Ok (u :: _) => inl (license_found u)
        | Ok [] => inr em
        end
  | None =>
      inl (res_json 400 [("success", JBool false); ("error", JStr "Email is required")])
  end.

(** Key derivation and insert. *)
Definition request_license_insert (en : env) (email : string) (db : database)
  : database * response :=
  match generateEmailBasedLicense email with
  | None => (db, request_failed)
  | Some licenseKey =>
      match insert_user en licenseKey email db with
      | (db', Ok newUser) => (db', license_created licenseKey email newUser)
      | (db', Throw _) => (db', request_failed)
      end
  end.

Definition post_api_request_license (e1 e2 : env) (email : option string)
    (db : database) : database * response :=
  match request_license_lookup e1 email db with
  | inl r => (db, r)
  | inr em => request_license_insert e2 em db
  end.

(** [GET /api/check-email/:email]. *)
Definition get_api_check_email (en : env) (email : string) (db : database)
  : response :=
  if String.eqb email "" then
    res_json 400 [("success", JBool false); ("error", JStr "Email is required")]
  else
    match select_users_by_email en email db with
    | Throw _ =>
        res_json 500 [("success", JBool false); ("error", JStr "Failed to check email")]
    | Ok (u :: _) =>
        res_json 200 [("success", JBool true);
                      ("hasLicense", JBool true);
                      ("licenseKey", JStr (Users.license_key u));
                      ("status", JStr (Users.status u));
                      ("plan", JStr (Users.plan_type u));
                      ("created", JDate (Users.created_at u))]
    | Ok [] =>
        res_json 200 [("success", JBool true); ("hasLicense", JBool false)]
    end.

(** [POST /api/dev/reset-email]. *)
Definition post_api_dev_reset_email (en : env) (email : option string)
    (db : database) : database * response :=
  match email with
  | Some em =>
      if negb (present email) then
        (db, res_json 400 [("success", JBool false); ("error", JStr "Email is required")])
      else
        match delete_users_by_email en em db with
        | (db', Ok _) =>
            (db', res_json 200
                    [("success", JBool true);
                     ("message", JStr ("Email " ++ em ++ " reset successfully")%string)])
        | (db', Throw _) =>
            (db', res_json 500 [("success", JBool false);
                                ("error", JStr "Failed to reset email")])
        end
  | None =>
      (db, res_json 400 [("success", JBool false); ("error", JStr "Email is required")])
  end.

(** ** The webhook ([stripe-webhook.js]) *)

Definition license_alphabet : string := "ABCDEFGHIJKLMNOPQRSTUVWXYZ0123456789".

(** The loop of [generateLicenseKey], [n] iterations from index [i];
    [draw i] is the value of [Math.floor(Math.random() * chars.length)] at
    iteration [i]. *)
Fixpoint generateLicenseKey_from (draw : nat -> nat) (n i : nat) (result : string)
  : string :=
  match n with
  | O => result
  | S n' =>
      let dashed :=
        if (0 <? i) && (i mod 4 =? 0) then (result ++ "-")%string else result in
      generateLicenseKey_from draw n' (S i)
        (dashed ++ Js.charAt license_alphabet (draw i))%string
  end.

Definition generateLicenseKey (draw : nat -> nat) : string :=
  generateLicenseKey_from draw 16 0 "".

(** [handleCheckoutCompleted]: [customerEmail] is
    [session.customer_details?.email]; errors are logged and dropped. *)
Definition handleCheckoutCompleted (en : env) (draw : nat -> nat)
    (customerEmail : option string) (db : database) : database :=
  match customerEmail with
  | Some em =>
      if negb (present customerEmail) then db
      else fst (activateLicense en (Str (generateLicenseKey draw)) (Str em) db)
  | None => db
  end.

(** [POST /webhook] with Stripe configured: [verified] is the outcome of
    [stripe.webhooks.constructEvent], whose error message the 400 response
    would carry after its prefix; the other event types only log. *)
Definition post_webhook (en : env) (draw : nat -> nat) (verified : bool)
    (event_type : string) (customerEmail : option string) (db : database)
  : database * response :=
  if negb verified then
    (db, mkResponse 400 (JStr "Webhook Error"))
  else
    let db' :=
      if String.eqb event_type "checkout.session.completed"
      then handleCheckoutCompleted en draw customerEmail db
      else db in
    (db', res_json 200 [("received", JBool true)]).

(** ** Interleaved requests

    Node runs one handler at a time up to its next [await]; between two
    awaits of one request, other requests may run.  For
    [POST /api/request-license] a request that has arrived either answers
    at its lookup or waits for its insert. *)

Inductive task : Type :=
  | Arrived (email : option string)
  | Selected (email : string)
  | Responded (r : response).

Definition task_step (en : env) (t : task) (db : database) : database * task :=
  match t with
  | Arrived email =>
      match request_license_lookup en email db with
      | inl r => (db, Responded r)
      | inr em => (db, Selected em)
      end
  | Selected em =>
      let (db', r) := request_license_insert en em db in (db', Responded r)
  | Responded _ => (db, t)
  end.

Fixpoint set_nth {A} (i : nat) (x : A) (l : list A) {struct l} : list A :=
  match l, i with
  | [], _ => []
  | _ :: l', O => x :: l'
  | y :: l', S i' => y :: set_nth i' x l'
  end.

(** A schedule names, step after step, the request that runs next and what
    the store answers it. *)
Fixpoint run (schedule : list (nat * env)) (tasks : list task) (db : database)
  : database * list task :=
  match schedule with
  | [] => (db, tasks)
  | (i, en) :: rest =>
      match nth_error tasks i with
      | Some t =>
          let (db', t') := task_step en t db in
          run rest (set_nth i t' tasks) db'
      | None => run rest tasks db
      end
  end.

(** ** Reachable stores

    The stores the statements above can produce from the empty tables,
    with any arguments and in any order: every route and the webhook stay
    inside this set. *)

Inductive statement : Type :=
  | InsertUser (key email : string)
  | UpsertUser (key email : string)
  | UpdateStatusByEmail (st email : string)
  | DeleteUsersByEmail (email : string)
  | UpsertUserData (key dtype : string) (c : json).

Definition exec (en : env) (q : statement) (db : database) : database :=
  match q with
  | InsertUser k e => fst (insert_user en k e db)
  | UpsertUser k e => fst (upsert_user en k e db)
  | UpdateStatusByEmail st e => fst (update_status_by_email en st e db)
  | DeleteUsersByEmail e => fst (delete_users_by_email en e db)
  | UpsertUserData k t c => fst (upsert_user_data en k t c db)
  end.

Inductive reachable : database -> Prop :=
  | reachable_empty : reachable empty_db
  | reachable_exec en q db : reachable db -> reachable (exec en q db).

(** ** Properties named by the specification *)







(** At most one data row per license key and data type. *)
Definition one_row_per_slot (db : database) : Prop :=
  NoDup (map (fun d => (UserData.license_key d, UserData.data_type d)) (user_data db)).


Definition up_env (t : nat) : env := mkEnv t true.

Definition down_env (t : nat) : env := mkEnv t false.

(** *** Stores used as examples *)

(** The key derived from [test@example.com]. *)
Definition sample_key : string := "5550-2F40-DC8B-7C76".

Definition sample_user (st : string) : Users.row :=
  Users.mkRow 1 sample_key "test@example.com" st "premium" 10 10.

(** One license, with status [st]; with [st = "active"] it is the store
    after a first [POST /api/request-license] for [test@example.com]. *)
Definition sample_db (st : string) : database :=
  mkDatabase [sample_user st] 1 [] 0.

(** *** Sentences of the specification the code is compared with *)

(** The rows a lookup by [email] finds: those of that email, and none for
    a parameter the store refuses, which no stored email equals. *)
Definition rows_of_email (email : string) (db : database) : list Users.row :=
  if no_nul email
  then filter (fun r => String.eqb (Users.email r) email) (users db)
  else [].




(** Two requests for [email], one after the other. *)
Definition request_twice (e1 e2 e3 e4 : env) (email : string) (db : database)
  : (database * response) * (database * response) :=
  let first := post_api_request_license e1 e2 (Some email) db in
  (first, post_api_request_license e3 e4 (Some email) (fst first)).

(** Two requests in a row answer the same key, the first with
    [created = true], the second with [created = false] and no change. *)
Definition idempotent_with_created_flag : Prop :=
  forall e1 e2 e3 e4 email db,
    up e1 = true -> up e2 = true -> up e3 = true -> up e4 = true ->
    emailRegex_test email = true ->
    reachable db ->
    let '((db1, r1), (db2, r2)) := request_twice e1 e2 e3 e4 email db in
    exists key,
      field "licenseKey" r1 = Some (JStr key)
      /\ field "licenseKey" r2 = Some (JStr key)
      /\ field "created" r1 = Some (JBool true)
      /\ field "created" r2 = Some (JBool false)
      /\ db2 = db1.



(** An activation for a key that is in the store answers 409 and changes
    nothing. *)
Definition activation_conflicts_on_known_key : Prop :=
  forall en key email db,
    up en = true -> emailRegex_test email = true ->
    has_key key (users db) = true ->
    post_api_activate_license en (Some key) (Some email) db
    = (db, res_json 409 [("success", JBool false);
                         ("error", JStr "License already activated")]).



(** A failing store shows as a server error. *)
Definition outage_surfaces_as_error : Prop :=
  (forall en key db,
      up en = false -> key <> "" ->
      500 <= res_status (post_api_verify_license en (Some (JStr key)) db))
  /\ (forall ev eg key dataType db,
         up ev = false \/ up eg = false ->
         500 <= res_status (get_api_sync_download ev eg key dataType db)).

Definition not_found : response :=
  res_json 404 [("success", JBool false);
                ("error", JStr "License not found or inactive")].

Definition no_data : response :=
  res_json 200 [("success", JBool true); ("data", JNull);
                ("message", JStr "No data found for this license")].

(** The alphabet [A-Z0-9-] of a random key. *)
Definition is_license_char (c : ascii) : bool :=
  let n := Js.code c in
  ((48 <=? n) && (n <=? 57)) || ((65 <=? n) && (n <=? 90)) || (n =? 45).



(** ** Further routes and notions *)

(** The strings a regular expression denotes. *)
Inductive accepts : Regex.re -> string -> Prop :=
  | accepts_eps : accepts Regex.Eps ""
  | accepts_class p c : p c = true -> accepts (Regex.Class p) (String c "")
  | accepts_cat r1 r2 s1 s2 :
      accepts r1 s1 -> accepts r2 s2 -> accepts (Regex.Cat r1 r2) (s1 ++ s2)
  | accepts_alt_l r1 r2 s : accepts r1 s -> accepts (Regex.Alt r1 r2) s
  | accepts_alt_r r1 r2 s : accepts r2 s -> accepts (Regex.Alt r1 r2) s
  | accepts_star_nil r : accepts (Regex.Star r) ""
  | accepts_star_cons r s1 s2 :
      accepts r s1 -> accepts (Regex.Star r) s2 -> accepts (Regex.Star r) (s1 ++ s2).

(** [licenseKey.substring(0, 8) + '...']. *)
Definition masked_key (licenseKey : string) : string :=
  (Js.substring licenseKey 0 8 ++ "...")%string.

(** [GET /api/license/:licenseKey/info]. *)
Definition get_api_license_info (en : env) (licenseKey : string) (db : database)
  : response :=
  let licenseResult := verifyLicense en licenseKey db in
  match valid licenseResult, user licenseResult with
  | true, Some u =>
      res_json 200
        [("success", JBool true);
         ("license",
          JObj [("key", JStr (masked_key licenseKey));
                ("email", JStr (Users.email u));
                ("plan", JStr (Users.plan_type u));
                ("status", JStr (Users.status u));
                ("activated", JDate (Users.created_at u));
                ("features",
                 JObj [("unlimited_notes", JBool true);
                       ("unlimited_folders", JBool true);
                       ("cloud_sync", JBool true);
                       ("premium_support", JBool true)])])]
  | true, None =>
      res_json 500 [("success", JBool false);
                    ("error", JStr "Failed to get license information")]
  | false, _ =>
      res_json 404 [("success", JBool false); ("error", JStr "License not found")]
  end.

(** The answer of [POST /api/generate-license] for an email that has an
    active license. *)
Definition existing_license (key : string) : response :=
  res_json 200 [("success", JBool true);
                ("message", JStr "License already exists for this email");
                ("licenseKey", JStr key);
                ("action", JStr "existing")].

(** The stores the routes and the webhook produce from the empty tables,
    a request for a license being served whole or in its two halves. *)
Inductive served : database -> Prop :=
  | served_empty : served empty_db
  | served_activate en licenseKey email db :
      served db -> served (fst (activate_license_route en licenseKey email db))
  | served_upload ev e1 e2 licenseKey dataType data db :
      served db ->
      served (fst (post_api_sync_upload ev e1 e2 licenseKey dataType data db))
  | served_generate e1 e2 email db :
      served db -> served (fst (post_api_generate_license e1 e2 email db))
  | served_request e1 e2 email db :
      served db -> served (fst (post_api_request_license e1 e2 email db))
  | served_step en t db :
      served db -> served (fst (task_step en t db))
  | served_reset en email db :
      served db -> served (fst (post_api_dev_reset_email en email db))
  | served_webhook en draw verified event_type customerEmail db :
      served db ->
      served (fst (post_webhook en draw verified event_type customerEmail db)).

(** A row as the server writes licenses: active and premium. *)
Definition active_premium (r : Users.row) : Prop :=
  Users.status r = "active" /\ Users.plan_type r = "premium".

(** The row of [users] that answers a key: the first active one. *)
Definition active_license (key : string) (db : database) : option Users.row :=
  find (fun r => String.eqb (Users.license_key r) key
                 && String.eqb (Users.status r) "active") (users db).

(** Stores with data rows, as examples: two versions of the notes of the
    sample license. *)
Definition sample_notes (t : nat) (text : string) : UserData.row :=
  UserData.mkRow t sample_key "notes" (JStr text) t t.

Definition sample_db_with_notes : database :=
  mkDatabase [sample_user "active"] 1
    [sample_notes 1 "first"; sample_notes 2 "second"] 2.

(** Widths of the columns of [users]. *)
Definition fits_columns (r : Users.row) : Prop :=
  String.length (Users.license_key r) <= 255
  /\ String.length (Users.email r) <= 255
  /\ String.length (Users.status r) <= 50.

(** The serial ids of [users]: distinct, and handed out by the sequence. *)
Definition ids_from_sequence (db : database) : Prop :=
  NoDup (map Users.id (users db))
  /\ Forall (fun r => 1 <= Users.id r <= users_id_seq db) (users db).

(** A request that has not been answered yet. *)
Definition is_open (t : task) : bool :=
  match t with
  | Responded _ => false
  | _ => true
  end.

Definition opens (t : task) : nat := if is_open t then 1 else 0.

Definition open_tasks (tasks : list task) : nat :=
  List.length (filter is_open tasks).
Example md5_empty : MD5.md5_hex "" = "d41d8cd98f00b204e9800998ecf8427e".
Proof. vm_compute. reflexivity. Qed.

Example md5_abc : MD5.md5_hex "abc" = "900150983cd24fb0d6963f7d28e17f72".
Proof. vm_compute. reflexivity. Qed.

Example md5_two_blocks :
  MD5.md5_hex "aaaaaaaaaaaaaaaaaaaaaaaaaaaaaaaaaaaaaaaaaaaaaaaaaaaaaaa@b.co"
  = "7581c1f82d5aa38053bc8107b27fa1bc".
Proof. vm_compute. reflexivity. Qed.

Example derive_test_example :
  generateEmailBasedLicense "test@example.com" = Some "5550-2F40-DC8B-7C76".
Proof. vm_compute. reflexivity. Qed.

(** ** Facts about the derived key *)

Lemma upper_hex_digit_cases (n : Z) :
  In (Js.upper_char (MD5.hex_digit n))
     (list_ascii_of_string "0123456789ABCDEF").
Proof.
  unfold MD5.hex_digit.
  destruct (Z.to_nat n) as [|k]; [cbn; tauto|].
  do 15 (destruct k as [|k]; [cbn; tauto|]).
  cbn. tauto.
Qed.

Lemma upper_hex_digit_dot (n : Z) :
  Js.is_line_terminator (Js.upper_char (MD5.hex_digit n)) = false.
Proof.
  pose proof (upper_hex_digit_cases n) as H. cbn in H.
  repeat (destruct H as [H|H]; [rewrite <- H; reflexivity|]).
  destruct H.
Qed.

Lemma upper_hex_digit_key (n : Z) :
  is_key_char (Js.upper_char (MD5.hex_digit n)) = true.
Proof.
  pose proof (upper_hex_digit_cases n) as H. cbn in H.
  repeat (destruct H as [H|H]; [rewrite <- H; reflexivity|]).
  destruct H.
Qed.

Lemma lower_char_idem (c : ascii) :
  Js.lower_char (Js.lower_char c) = Js.lower_char c.
Proof.
  destruct c as [[] [] [] [] [] [] [] []]; reflexivity.
Qed.

Lemma toLowerCase_idem (s : string) :
  Js.toLowerCase (Js.toLowerCase s) = Js.toLowerCase s.
Proof.
  induction s as [|c s IH]; cbn; [reflexivity|].
  now rewrite lower_char_idem, IH.
Qed.

Lemma dot_groups_step (cur : string) (c : ascii) (s : string) :
  Js.is_line_terminator c = false ->
  Js.dot_groups cur (String c s)
  = if String.length cur =? 4 then cur :: Js.dot_groups (String c EmptyString) s
    else Js.dot_groups (cur ++ String c EmptyString)%string s.
Proof. intros H. cbn [Js.dot_groups]. now rewrite H. Qed.

Lemma key_chars_groups (st : MD5.state) :
  exists g1 g2 g3 g4 : string,
    Js.dot_groups EmptyString (key_chars st) = [g1; g2; g3; g4]
    /\ Js.substring (key_chars st) 0 4 = g1
    /\ Js.substring (key_chars st) 4 8 = g2
    /\ Js.substring (key_chars st) 8 12 = g3
    /\ Js.substring (key_chars st) 12 16 = g4
    /\ String.length g1 = 4 /\ String.length g2 = 4
    /\ String.length g3 = 4 /\ String.length g4 = 4
    /\ all_chars is_key_char g1 = true /\ all_chars is_key_char g2 = true
    /\ all_chars is_key_char g3 = true /\ all_chars is_key_char g4 = true.
Proof.
  destruct st as [a b c d].
  unfold key_chars, Js.substring.
  cbn [MD5.sa MD5.sb MD5.sc MD5.sd MD5.le_bytes app MD5.hex Js.toUpperCase
       Nat.min Nat.max Nat.sub String.substring].
  do 16 (rewrite dot_groups_step by apply upper_hex_digit_dot;
         cbn [String.length Nat.eqb append]).
  cbn [Js.dot_groups Js.flush].
  do 4 eexists. split; [reflexivity|].
  cbn [Nat.min Nat.max Nat.sub String.substring String.length all_chars].
  rewrite !upper_hex_digit_key.
  repeat split; reflexivity.
Qed.

Lemma string_length_app (s t : string) :
  String.length (s ++ t) = String.length s + String.length t.
Proof. induction s as [|c s IH]; cbn; [reflexivity|now rewrite IH]. Qed.

Lemma all_chars_app (p : ascii -> bool) (s t : string) :
  all_chars p (s ++ t) = all_chars p s && all_chars p t.
Proof.
  induction s as [|c s IH]; cbn; [reflexivity|].
  now rewrite IH, andb_assoc.
Qed.

Lemma hash_key_chars (s : string) :
  exists st, Js.substring (Js.toUpperCase (MD5.md5_hex s)) 0 16 = key_chars st.
Proof.
  unfold MD5.md5_hex, MD5.digest, key_chars.
  eexists (MD5.mkState _ _ _ _). reflexivity.
Qed.

(** The key is always produced, and it is the reference one. *)
Lemma generateEmailBasedLicense_total (email : string) :
  generateEmailBasedLicense email = Some (derive_reference email).
Proof.
  unfold generateEmailBasedLicense, derive_reference, Js.match_dot_1_4_g.
  destruct (hash_key_chars (Js.toLowerCase email)) as [st ->].
  destruct (key_chars_groups st) as (g1 & g2 & g3 & g4 & -> & -> & -> & -> & -> & _).
  reflexivity.
Qed.

Lemma derive_reference_format (email : string) :
  String.length (derive_reference email) = 19
  /\ all_chars is_key_char (derive_reference email) = true.
Proof.
  unfold derive_reference.
  destruct (hash_key_chars (Js.toLowerCase email)) as [st ->].
  destruct (key_chars_groups st)
    as (g1 & g2 & g3 & g4 & _ & -> & -> & -> & -> & L1 & L2 & L3 & L4
        & A1 & A2 & A3 & A4).
  split.
  - rewrite !string_length_app, L1, L2, L3, L4. reflexivity.
  - rewrite !all_chars_app, A1, A2, A3, A4. reflexivity.
Qed.

Lemma derived_key_length (email key : string) :
  generateEmailBasedLicense email = Some key -> String.length key = 19.
Proof.
  rewrite generateEmailBasedLicense_total. intros [= <-].
  apply derive_reference_format.
Qed.

(** C2. For every email the derived key is the reference one: the
    hexadecimal MD5 digest of the lower-cased email, upper-cased, cut to
    sixteen characters and written as four dash-separated groups of four.
    It has 19 characters over [A-F0-9-], depends on nothing but the email,
    and does not see the case of the email: the keys of [A@B.com] and of
    [a@b.com] are the same. *)
Theorem generateEmailBasedLicense_reference (email : string) :
  generateEmailBasedLicense email = Some (derive_reference email)
  /\ String.length (derive_reference email) = 19
  /\ all_chars is_key_char (derive_reference email) = true
  /\ generateEmailBasedLicense (Js.toLowerCase email)
     = generateEmailBasedLicense email
  /\ generateEmailBasedLicense "A@B.com" = generateEmailBasedLicense "a@b.com".
Proof.
  split; [apply generateEmailBasedLicense_total|].
  split; [apply derive_reference_format|].
  split; [apply derive_reference_format|].
  split.
  - unfold generateEmailBasedLicense. now rewrite toLowerCase_idem.
  - vm_compute. reflexivity.
Qed.

(** ** Facts about the email pattern *)

Module RegexFacts.
Import Regex.

Lemma dead_not_nullable (r : re) : dead r = true -> nullable r = false.
Proof.
  induction r; cbn; intros H; try discriminate; try reflexivity.
  - apply orb_true_iff in H as [H|H];
      [rewrite IHr1 by exact H|rewrite IHr2 by exact H];
      [reflexivity|apply andb_false_r].
  - apply andb_true_iff in H as [H1 H2]. now rewrite IHr1, IHr2.
Qed.

Lemma dead_deriv (c : ascii) (r : re) : dead r = true -> dead (deriv c r) = true.
Proof.
  induction r; cbn; intros H; try discriminate; try reflexivity.
  - apply orb_true_iff in H as [H|H].
    + rewrite (dead_not_nullable _ H), IHr1 by exact H. reflexivity.
    + rewrite H, orb_true_r. cbn.
      destruct (nullable r1); [now apply IHr2|reflexivity].
  - apply andb_true_iff in H as [H1 H2]. now rewrite IHr1, IHr2.
Qed.

Lemma dead_no_match (s : string) : forall r, dead r = true -> matches r s = false.
Proof.
  induction s as [|c s IH]; cbn; intros r H.
  - now apply dead_not_nullable.
  - apply IH. now apply dead_deriv.
Qed.

Lemma classes_within_deriv (q : ascii -> bool) (c : ascii) (r : re) :
  classes_within q r -> classes_within q (deriv c r).
Proof.
  induction r; cbn; intros H; try exact I.
  - destruct (p c); exact I.
  - destruct H as [H1 H2]. repeat split; auto.
    destruct (nullable r1); cbn; auto.
  - destruct H as [H1 H2]. split; auto.
  - split; auto.
Qed.

Lemma outside_deriv_dead (q : ascii -> bool) (c : ascii) (r : re) :
  classes_within q r -> q c = false -> dead (deriv c r) = true.
Proof.
  intros H Hc. induction r; cbn in *; try reflexivity.
  - destruct (p c) eqn:E; [|reflexivity].
    apply H in E. congruence.
  - destruct H as [H1 H2]. rewrite IHr1 by exact H1. cbn.
    destruct (nullable r1); [now apply IHr2|reflexivity].
  - destruct H as [H1 H2]. now rewrite IHr1, IHr2.
  - now rewrite IHr.
Qed.

(** A matched string is made of characters of the classes. *)
Lemma matches_within (q : ascii -> bool) (s : string) :
  forall r, classes_within q r -> matches r s = true -> all_chars q s = true.
Proof.
  induction s as [|c s IH]; cbn; intros r H M; [reflexivity|].
  destruct (q c) eqn:E; cbn.
  - apply (IH (deriv c r)); [now apply classes_within_deriv|exact M].
  - rewrite dead_no_match in M; [discriminate|].
    now apply (outside_deriv_dead q).
Qed.

End RegexFacts.

Lemma not_space_at_not_blank (c : ascii) :
  not_space_at c = true -> not_blank c = true.
Proof.
  destruct c as [[] [] [] [] [] [] [] []]; vm_compute; intros H;
    first [reflexivity|discriminate H].
Qed.

Lemma is_char_not_blank (a c : ascii) :
  a <> " "%char -> is_char a c = true -> not_blank c = true.
Proof.
  unfold is_char, not_blank. intros Ha H.
  apply Ascii.eqb_eq in H. subst c.
  destruct (is_char " " a) eqn:E; [|reflexivity].
  apply Ascii.eqb_eq in E. congruence.
Qed.

(** An email that passes the pattern has no blank in it. *)
Lemma valid_email_no_blank (email : string) :
  emailRegex_test email = true -> all_chars not_blank email = true.
Proof.
  apply RegexFacts.matches_within.
  unfold emailRegex, Regex.Plus. cbn [Regex.classes_within].
  repeat split; intros c; try apply not_space_at_not_blank;
    apply is_char_not_blank; discriminate.
Qed.

Lemma valid_email_not_empty (email : string) :
  emailRegex_test email = true -> email <> "".
Proof. intros H ->. discriminate H. Qed.

Example email_ok : emailRegex_test "test@example.com" = true.
Proof. reflexivity. Qed.

Example email_two_ats : emailRegex_test "a@b@c.com" = false.
Proof. reflexivity. Qed.

Example email_no_dot : emailRegex_test "a@bcom" = false.
Proof. reflexivity. Qed.

Example email_blank : emailRegex_test "a b@c.com" = false.
Proof. reflexivity. Qed.

Example email_dotted_domain : emailRegex_test "a.b@c.d.e" = true.
Proof. reflexivity. Qed.

(** ** Facts about [VARCHAR] columns *)

Lemma all_chars_substring (p : ascii -> bool) (s : string) :
  forall n m, all_chars p s = true -> all_chars p (String.substring n m s) = true.
Proof.
  induction s as [|c s IH]; intros n m H.
  - destruct n, m; reflexivity.
  - cbn [all_chars] in H. apply andb_true_iff in H as [Hc Hs].
    destruct n, m; cbn [String.substring all_chars]; auto.
    rewrite Hc. cbn. now apply IH.
Qed.

Lemma substring_not_empty (s : string) :
  forall n m, n < String.length s -> 0 < m -> String.substring n m s <> "".
Proof.
  induction s as [|c s IH]; cbn; intros n m Hn Hm; [lia|].
  destruct n, m; try lia; cbn; [discriminate|].
  apply IH; lia.
Qed.

Lemma blank_free_not_blank (s : string) :
  s <> "" -> all_chars not_blank s = true -> all_chars (is_char " ") s = false.
Proof.
  destruct s as [|c s]; [congruence|]. cbn [all_chars]. intros _ H.
  apply andb_true_iff in H as [H _]. unfold not_blank in H.
  apply negb_true_iff in H. now rewrite H.
Qed.

(** A value without blanks is stored as it is, or refused. *)
Lemma varchar_no_blank (n : nat) (s s' : string) :
  all_chars not_blank s = true -> varchar n s = Ok s' -> s' = s.
Proof.
  unfold varchar. intros H.
  destruct (String.length s <=? n) eqn:L; [now intros [= <-]|].
  apply Nat.leb_gt in L.
  rewrite blank_free_not_blank; [discriminate| |now apply all_chars_substring].
  apply substring_not_empty; lia.
Qed.

Lemma varchar_short (n : nat) (s : string) :
  String.length s <= n -> varchar n s = Ok s.
Proof. unfold varchar. intros H. apply Nat.leb_le in H. now rewrite H. Qed.

Lemma varchar_key (email key : string) :
  generateEmailBasedLicense email = Some key -> varchar 255 key = Ok key.
Proof.
  intros H. apply varchar_short. rewrite (derived_key_length _ _ H). lia.
Qed.

(** ** Parameters the store accepts *)

Lemma all_chars_weaken (p q : ascii -> bool) (s : string) :
  (forall c, p c = true -> q c = true) ->
  all_chars p s = true -> all_chars q s = true.
Proof.
  intros Hpq. induction s as [|c s IH]; cbn [all_chars]; [reflexivity|].
  intros H. apply andb_true_iff in H as [Hc Hs].
  now rewrite (Hpq c Hc), IH.
Qed.

Lemma key_chars_no_nul (s : string) :
  all_chars is_key_char s = true -> no_nul s = true.
Proof.
  apply all_chars_weaken. intros c. unfold is_key_char.
  destruct (Js.code c) as [|n]; [discriminate|reflexivity].
Qed.

Lemma derived_key_no_nul (email key : string) :
  generateEmailBasedLicense email = Some key -> no_nul key = true.
Proof.
  rewrite generateEmailBasedLicense_total. intros [= <-].
  apply key_chars_no_nul, derive_reference_format.
Qed.

(** ** The read routes and the sync gate *)

Lemma filter_head_find {A} (f : A -> bool) (l : list A) :
  find f l = match filter f l with x :: _ => Some x | [] => None end.
Proof.
  induction l as [|a l IH]; cbn; [reflexivity|].
  destruct (f a); [reflexivity|exact IH].
Qed.

Lemma filter_none {A} (f : A -> bool) (l : list A) :
  (forall x, In x l -> f x = false) -> filter f l = [].
Proof.
  induction l as [|a l IH]; cbn; intros H; [reflexivity|].
  rewrite (H a) by now left. apply IH. intros x Hx. apply H. now right.
Qed.

Lemma string_eqb_false (a b : string) : a <> b -> String.eqb a b = false.
Proof. apply String.eqb_neq. Qed.

Lemma present_some (s : string) : s <> "" -> present (Some s) = true.
Proof. intros H. cbn. now rewrite string_eqb_false. Qed.

(** A key without an active row does not verify, whatever the store
    answers. *)
Lemma verifyLicense_inactive (en : env) (key : string) (db : database) :
  (forall u, In u (users db) -> Users.license_key u = key ->
             Users.status u <> "active") ->
  verifyLicense en key db = mkLicenseResult false None.
Proof.
  intros H. unfold verifyLicense, select_users_by_key_status.
  destruct (up en); [|reflexivity].
  rewrite filter_none; [reflexivity|].
  intros u Hu. destruct (String.eqb_spec (Users.license_key u) key) as [E|E];
    [|reflexivity].
  cbn. apply string_eqb_false. now apply H.
Qed.

(** C9. A license key that does not resolve to an active license is
    refused by upload and by download with 403 "Invalid or inactive
    license", and the upload leaves the store as it was. *)
Theorem sync_gate_refuses_inactive (ev e1 e2 eg : env) (key : string)
    (dataType : option string) (data : json) (db : database) :
  (forall u, In u (users db) -> Users.license_key u = key ->
             Users.status u <> "active") ->
  key <> "" -> truthy data = true ->
  post_api_sync_upload ev e1 e2 (Some key) dataType (Some data) db
  = (db, invalid_license)
  /\ get_api_sync_download ev eg key dataType db = invalid_license
  /\ res_status invalid_license = 403.
Proof.
  intros H Hk Hd. unfold post_api_sync_upload, get_api_sync_download.
  rewrite (present_some _ Hk), Hd, !(verifyLicense_inactive _ _ _ H).
  cbn. auto.
Qed.

Lemma sync_gate_refuses_inactive_witness :
  post_api_sync_upload (up_env 20) (up_env 21) (up_env 22) (Some sample_key)
    (Some "notes") (Some (JStr "my notes")) (sample_db "inactive")
  = (sample_db "inactive", invalid_license)
  /\ get_api_sync_download (up_env 20) (up_env 21) sample_key (Some "notes")
       (sample_db "inactive") = invalid_license
  /\ res_status invalid_license = 403.
Proof.
  apply (sync_gate_refuses_inactive (up_env 20) (up_env 21) (up_env 22) (up_env 21)
           sample_key (Some "notes") (JStr "my notes") (sample_db "inactive")).
  - intros u [<-|[]] _. discriminate.
  - discriminate.
  - reflexivity.
Defined.




Example check_email_unknown :
  get_api_check_email (up_env 30) "nobody@example.com" (sample_db "active")
  = res_json 200 [("success", JBool true); ("hasLicense", JBool false)].
Proof. reflexivity. Qed.

(** ** Store failures on the read routes *)

Lemma verifyLicense_down (en : env) (key : string) (db : database) :
  up en = false -> verifyLicense en key db = mkLicenseResult false None.
Proof.
  intros H. unfold verifyLicense, select_users_by_key_status. now rewrite H.
Qed.

Lemma getUserData_down (en : env) (key dtype : string) (db : database) :
  up en = false -> getUserData en key dtype db = None.
Proof. intros H. unfold getUserData, select_user_data. now rewrite H. Qed.

(** C8, the sentence as written fails: during an outage the license of
    the example store is reported as "not found" by verify-license, and a
    download whose data read fails answers 200 with no data. *)
Lemma outage_reported_as_not_found :
  post_api_verify_license (down_env 40) (Some (JStr sample_key)) (sample_db "active")
  = not_found
  /\ get_api_sync_download (up_env 40) (down_env 41) sample_key None (sample_db "active")
     = no_data
  /\ ~ outage_surfaces_as_error.
Proof.
  split; [reflexivity|]. split; [reflexivity|].
  intros [H _].
  specialize (H (down_env 40) sample_key (sample_db "active") eq_refl).
  assert (sample_key <> "") as N by discriminate.
  specialize (H N). cbn in H. lia.
Qed.

(** C8, as the code has it. When the store call of a verify-license or
    download request fails, the failure is caught in [database.js] and the
    request is answered like a missing license or missing data: 404
    "License not found or inactive" for verify-license, 403 "Invalid or
    inactive license" for a download whose license lookup fails, and 200
    with [data: null] for a download whose data read fails after the
    license verified. *)
Theorem outage_degrades_to_not_found (en ev eg : env) (key : string)
    (dataType : option string) (db : database) :
  up en = false -> key <> "" ->
  post_api_verify_license en (Some (JStr key)) db = not_found
  /\ get_api_sync_download en eg key dataType db = invalid_license
  /\ get_api_sync_download ev en key dataType db
     = (if valid (verifyLicense ev key db) then no_data else invalid_license).
Proof.
  intros Hd Hk. unfold post_api_verify_license, get_api_sync_download.
  rewrite (string_eqb_false _ _ Hk), !(verifyLicense_down en) by exact Hd.
  rewrite (getUserData_down en) by exact Hd.
  repeat split. now destruct (valid (verifyLicense ev key db)).
Qed.

Lemma outage_degrades_to_not_found_witness :
  post_api_verify_license (down_env 40) (Some (JStr sample_key)) (sample_db "active")
  = not_found
  /\ get_api_sync_download (down_env 40) (up_env 41) sample_key None (sample_db "active")
     = invalid_license
  /\ get_api_sync_download (up_env 39) (down_env 40) sample_key None (sample_db "active")
     = (if valid (verifyLicense (up_env 39) sample_key (sample_db "active"))
        then no_data else invalid_license).
Proof.
  apply (outage_degrades_to_not_found (down_env 40) (up_env 39) (up_env 41)
           sample_key None (sample_db "active")).
  - reflexivity.
  - discriminate.
Defined.

(** ** Uploads *)

(** The upsert of [saveUserData] names a conflict target that no unique
    index of [user_data] covers: the statement is refused. *)
Lemma upsert_user_data_refused (en : env) (key dtype : string) (c : json)
    (db : database) :
  exists x, upsert_user_data en key dtype c db = (db, Throw x).
Proof.
  unfold upsert_user_data. destruct (up en); [|eauto].
  destruct (no_nul key && no_nul dtype); cbn; eauto.
Qed.

Lemma saveUserData_throws (e1 e2 : env) (key dtype : string) (c : json)
    (db : database) :
  exists x, saveUserData e1 e2 key dtype c db = (db, Throw x).
Proof.
  unfold saveUserData.
  destruct (select_users_by_key_status e1 key "active" db) as [[|u rows]|x]; eauto.
  apply upsert_user_data_refused.
Qed.

(** C5, on the code: no upload ever succeeds or writes.  Whatever the
    request, the store is left as it was and the answer is not 200; for an
    active license, first write or repeated, the answer is 500 "Failed to
    upload data", because the upsert of [saveUserData] is refused by the
    store.  A repeated write therefore neither replaces content nor adds
    a row. *)
Theorem upload_never_stores (ev e1 e2 : env) (licenseKey dataType : option string)
    (data : option json) (db : database) :
  fst (post_api_sync_upload ev e1 e2 licenseKey dataType data db) = db
  /\ res_status (snd (post_api_sync_upload ev e1 e2 licenseKey dataType data db)) <> 200
  /\ post_api_sync_upload (up_env 50) (up_env 51) (up_env 52) (Some sample_key)
       (Some "notes") (Some (JStr "my notes")) (sample_db "active")
     = (sample_db "active",
        res_json 500 [("success", JBool false); ("error", JStr "Failed to upload data")]).
Proof.
  split; [|split; [|vm_compute; reflexivity]];
    unfold post_api_sync_upload;
    destruct licenseKey as [key|], data as [d|];
    cbn [fst snd res_status res_json]; try (reflexivity || lia);
    destruct (negb (present (Some key)) || negb (truthy d));
    cbn [fst snd res_status res_json]; try (reflexivity || lia);
    destruct (negb (valid (verifyLicense ev key db)));
    cbn [fst snd res_status res_json invalid_license]; try (reflexivity || lia);
    destruct (saveUserData_throws e1 e2 key (data_type_or_notes dataType) d db)
      as [x ->]; cbn [fst snd res_status res_json]; reflexivity || lia.
Qed.

(** ** Activation with a caller-supplied key *)

Lemma varchar_throw (n : nat) (s : string) (x : exn) :
  varchar n s = Throw x -> x = PgError StringDataRightTruncation.
Proof.
  unfold varchar. destruct (String.length s <=? n); [discriminate|].
  destruct (all_chars _ _); [discriminate|]. now intros [= <-].
Qed.

Lemma upsert_user_no_unique_violation (en : env) (key email : string)
    (db db' : database) (x : exn) :
  upsert_user en key email db = (db', Throw x) ->
  has_code x "23505" = false.
Proof.
  unfold upsert_user.
  destruct (up en); [|intros [= _ <-]; reflexivity].
  destruct (no_nul key && no_nul email); [|intros [= _ <-]; reflexivity].
  cbn [has_arbiter users_unique existsb same_columns forallb String.eqb
       Ascii.eqb Bool.eqb andb orb].
  destruct (varchar 255 key) as [k|xk] eqn:K.
  - destruct (varchar 255 email) as [e|xe] eqn:E.
    + destruct (find _ _); discriminate.
    + intros [= _ <-]. now rewrite (varchar_throw _ _ _ E).
  - destruct (varchar 255 email); intros [= _ <-];
      now rewrite (varchar_throw _ _ _ K).
Qed.

Lemma activateLicense_no_unique_violation (en : env) (key email : value)
    (db db' : database) (x : exn) :
  activateLicense en key email db = (db', Throw x) ->
  has_code x "23505" = false.
Proof.
  unfold activateLicense.
  destruct (upsert_user en (value_bound key) (value_bound email) db)
    as [d [u|y]] eqn:U.
  - destruct (is_string key); [discriminate|]. intros [= _ <-]. reflexivity.
  - intros [= _ <-]. exact (upsert_user_no_unique_violation _ _ _ _ _ _ U).
Qed.

(** An activation with two strings is the upsert. *)
Lemma activateLicense_strings (en : env) (key email : string) (db : database) :
  activateLicense en (Str key) (Str email) db = upsert_user en key email db.
Proof.
  unfold activateLicense. cbn [value_bound is_string].
  now destruct (upsert_user en key email db) as [d [u|x]].
Qed.

(** Whatever the two fields of the body are, the route does not answer
    409. *)
Lemma activate_license_route_not_409 (en : env) (licenseKey email : option value)
    (db : database) :
  res_status (snd (activate_license_route en licenseKey email db)) <> 409.
Proof.
  unfold activate_license_route.
  destruct licenseKey as [key|], email as [em|];
    try (cbn [snd res_status res_json]; lia).
  destruct (negb (value_truthy key) || negb (value_truthy em));
    [cbn [snd res_status res_json]; lia|].
  destruct (negb (emailRegex_test (value_string em)));
    [cbn [snd res_status res_json]; lia|].
  destruct (activateLicense en key em db) as [db' [u|x]] eqn:A;
    [cbn [snd res_status res_json]; lia|].
  rewrite (activateLicense_no_unique_violation _ _ _ _ _ _ A).
  cbn [snd res_status res_json]. lia.
Qed.

(** C7, on the code: the route never answers 409, and an activation for a
    key that is already in the store answers 200 and binds the existing
    row to the email of the caller. *)
Theorem activate_known_key_rebinds (en : env) (licenseKey email : option string)
    (db : database) :
  res_status (snd (post_api_activate_license en licenseKey email db)) <> 409
  /\ post_api_activate_license (up_env 60) (Some sample_key)
       (Some "other@example.org") (sample_db "active")
     = (mkDatabase
          [Users.mkRow 1 sample_key "other@example.org" "active" "premium" 10 60]
          2 [] 0,
        res_json 200 [("success", JBool true);
                      ("message", JStr "License activated successfully");
                      ("user", JObj [("email", JStr "other@example.org");
                                     ("plan", JStr "premium");
                                     ("status", JStr "active");
                                     ("activated", JDate 10)])])
  /\ ~ activation_conflicts_on_known_key.
Proof.
  split; [|split; [vm_compute; reflexivity|]].
  - apply activate_license_route_not_409.
  - intros H.
    specialize (H (up_env 60) sample_key "other@example.org" (sample_db "active")
                  eq_refl eq_refl eq_refl).
    vm_compute in H. discriminate H.
Qed.

(** ** Requests for an email that has a row *)

Lemma request_license_existing (e1 e2 : env) (email : string) (db : database)
    (u : Users.row) (rest : list Users.row) :
  up e1 = true -> emailRegex_test email = true ->
  rows_of_email email db = u :: rest ->
  post_api_request_license e1 e2 (Some email) db = (db, license_found u).
Proof.
  intros Hup Hv Hrows.
  unfold post_api_request_license, request_license_lookup, select_users_by_email.
  rewrite (present_some _ (valid_email_not_empty _ Hv)), Hv, Hup.
  unfold rows_of_email in Hrows.
  destruct (no_nul email); [|discriminate]. now rewrite Hrows.
Qed.

(** C4, on the code: [POST /api/request-license] for an email whose
    license is inactive answers with the stored key and the stored status
    [inactive], and changes nothing; the sibling route
    [POST /api/generate-license] is the one that sets the license back to
    active and moves [updated_at]. *)
Theorem request_license_keeps_inactive :
  post_api_request_license (up_env 70) (up_env 71) (Some "test@example.com")
    (sample_db "inactive")
  = (sample_db "inactive", license_found (sample_user "inactive"))
  /\ field "status" (license_found (sample_user "inactive")) = Some (JStr "inactive")
  /\ post_api_generate_license (up_env 70) (up_env 71)
       (Some (JStr "test@example.com")) (sample_db "inactive")
     = (mkDatabase
          [Users.mkRow 1 sample_key "test@example.com" "active" "premium" 10 71]
          1 [] 0,
        res_json 200 [("success", JBool true);
                      ("message", JStr "License reactivated");
                      ("licenseKey", JStr sample_key);
                      ("action", JStr "reactivated")]).
Proof. repeat split; reflexivity. Qed.

(** ** Keys in the store *)




(** ** The checkout webhook *)

Lemma charAt_alphabet (n : nat) :
  n < 36 ->
  exists c, Js.charAt license_alphabet n = String c "" /\ is_license_char c = true.
Proof.
  intros H.
  do 36 (destruct n as [|n]; [eexists; split; reflexivity|]).
  lia.
Qed.



Example generateLicenseKey_zeros :
  generateLicenseKey (fun _ => 0) = "AAAA-AAAA-AAAA-AAAA".
Proof. reflexivity. Qed.

Example generateLicenseKey_counting :
  generateLicenseKey (fun i => 20 + i) = "UVWX-YZ01-2345-6789".
Proof. reflexivity. Qed.




Example webhook_unverified :
  post_webhook (up_env 81) (fun _ => 1) false "checkout.session.completed"
    (Some "test@example.com") (sample_db "active")
  = (sample_db "active", mkResponse 400 (JStr "Webhook Error")).
Proof. reflexivity. Qed.

(** ** Two requests in a row *)

Lemma select_users_by_email_ok (en : env) (email : string) (db : database)
    (rows : list Users.row) :
  select_users_by_email en email db = Ok rows ->
  up en = true /\ rows_of_email email db = rows.
Proof.
  unfold select_users_by_email, rows_of_email.
  destruct (up en); [|discriminate].
  destruct (no_nul email); [|discriminate]. intros [= <-]. auto.
Qed.

Lemma select_users_by_email_no_nul (en : env) (email : string) (db : database)
    (rows : list Users.row) :
  select_users_by_email en email db = Ok rows -> no_nul email = true.
Proof.
  unfold select_users_by_email.
  destruct (up en); [|discriminate]. now destruct (no_nul email).
Qed.

Lemma rows_of_email_filter (email : string) (db : database) :
  no_nul email = true ->
  rows_of_email email db
  = filter (fun r => String.eqb (Users.email r) email) (users db).
Proof. intros H. unfold rows_of_email. now rewrite H. Qed.

Lemma rows_of_email_in (email : string) (db : database) (u : Users.row) :
  In u (rows_of_email email db) -> In u (users db) /\ Users.email u = email.
Proof.
  unfold rows_of_email. destruct (no_nul email); [|intros []].
  intros H. apply filter_In in H as [H E]. now apply String.eqb_eq in E.
Qed.

(** What a successful insert of [request_license_insert] leaves. *)
Lemma request_license_insert_ok (en : env) (email : string) (db db' : database)
    (r : response) :
  all_chars not_blank email = true ->
  request_license_insert en email db = (db', r) ->
  res_status r = 200 ->
  exists key u,
    generateEmailBasedLicense email = Some key
    /\ u = Users.mkRow (S (users_id_seq db)) key email "active" "premium"
             (now en) (now en)
    /\ has_key key (users db) = false
    /\ db' = with_users db (users db ++ [u]) (S (users_id_seq db))
    /\ r = license_created key email u.
Proof.
  intros Hb. unfold request_license_insert.
  destruct (generateEmailBasedLicense email) as [key|] eqn:G;
    [|intros [= <- <-]; discriminate].
  unfold insert_user. rewrite (varchar_key _ _ G), (derived_key_no_nul _ _ G).
  destruct (up en); [|intros [= <- <-]; discriminate].
  destruct (no_nul email); cbn [andb]; [|intros [= <- <-]; discriminate].
  destruct (varchar 255 email) as [e|x] eqn:V; [|intros [= <- <-]; discriminate].
  apply (varchar_no_blank _ _ _ Hb) in V. subst e.
  destruct (has_key key (users db)) eqn:K; intros [= <- <-]; [discriminate|].
  intros _. eauto 10.
Qed.

Lemma rows_of_email_last (email : string) (db : database) (u : Users.row) (seq : nat) :
  no_nul email = true -> Users.email u = email ->
  rows_of_email email (with_users db (users db ++ [u]) seq)
  = rows_of_email email db ++ [u].
Proof.
  intros N H. unfold rows_of_email. rewrite N. cbn [with_users users].
  rewrite filter_app. cbn. now rewrite H, String.eqb_refl.
Qed.

(** A first request for an email that has no row, and whose derived key
    is free, creates the license. *)
Lemma request_license_fresh (e1 e2 : env) (email key : string) (db : database) :
  up e1 = true -> up e2 = true ->
  emailRegex_test email = true -> String.length email <= 255 ->
  no_nul email = true ->
  rows_of_email email db = [] ->
  generateEmailBasedLicense email = Some key ->
  has_key key (users db) = false ->
  post_api_request_license e1 e2 (Some email) db
  = (let u := Users.mkRow (S (users_id_seq db)) key email "active" "premium"
                (now e2) (now e2) in
     (with_users db (users db ++ [u]) (S (users_id_seq db)),
      license_created key email u)).
Proof.
  intros H1 H2 V L N R G K.
  unfold post_api_request_license, request_license_lookup, select_users_by_email.
  rewrite (present_some _ (valid_email_not_empty _ V)), V, H1, N.
  rewrite (rows_of_email_filter _ _ N) in R. rewrite R. cbn [negb].
  unfold request_license_insert, insert_user.
  now rewrite G, H2, (derived_key_no_nul _ _ G), N, (varchar_key _ _ G),
    (varchar_short _ _ L), K.
Qed.

(** C3, the sentence as written fails: the responses carry no boolean
    [created]; after a first request for a new email the second response
    has the creation time in [created] and the first has no such field.
    And when the derived key is already taken (here by the same address
    in capitals), both requests fail with 500 and carry no key. *)
Lemma created_is_not_a_flag :
  field "created" (snd (fst (request_twice (up_env 10) (up_env 10) (up_env 11)
                               (up_env 11) "test@example.com" empty_db))) = None
  /\ field "created" (snd (snd (request_twice (up_env 10) (up_env 10) (up_env 11)
                                  (up_env 11) "test@example.com" empty_db)))
     = Some (JDate 10)
  /\ fst (post_api_request_license (up_env 9) (up_env 9) (Some "TEST@example.com")
            empty_db)
     = mkDatabase [Users.mkRow 1 sample_key "TEST@example.com" "active" "premium" 9 9]
         1 [] 0
  /\ (let db := fst (post_api_request_license (up_env 9) (up_env 9)
                       (Some "TEST@example.com") empty_db) in
      snd (fst (request_twice (up_env 10) (up_env 10) (up_env 11) (up_env 11)
                  "test@example.com" db)) = request_failed
      /\ snd (snd (request_twice (up_env 10) (up_env 10) (up_env 11) (up_env 11)
                     "test@example.com" db)) = request_failed)
  /\ ~ idempotent_with_created_flag.
Proof.
  split; [vm_compute; reflexivity|].
  split; [vm_compute; reflexivity|].
  split; [vm_compute; reflexivity|].
  split; [split; vm_compute; reflexivity|].
  intros H.
  specialize (H (up_env 10) (up_env 10) (up_env 11) (up_env 11) "test@example.com"
                empty_db eq_refl eq_refl eq_refl eq_refl eq_refl reachable_empty).
  destruct (request_twice (up_env 10) (up_env 10) (up_env 11) (up_env 11)
              "test@example.com" empty_db) as [[db1 r1] [db2 r2]] eqn:E.
  vm_compute in E. injection E as <- <- <- <-.
  destruct H as (key & _ & _ & C & _). discriminate C.
Qed.

(** C3, as the code has it. If the first of two requests in a row for an
    email succeeds, and the store answers the lookup of the second, then
    both carry the same license key, that of a row [u] of the email; the
    second response is "License found for this email" with the status and
    the creation time of [u] and leaves the store as the first left it.
    The first response is the same one when the email already had a row;
    otherwise it is "License created successfully" for the new active row
    [u], whose key is the one derived from the email. *)
Theorem request_license_twice (e1 e2 e3 e4 : env) (email : string)
    (db db1 db2 : database) (r1 r2 : response) :
  request_twice e1 e2 e3 e4 email db = ((db1, r1), (db2, r2)) ->
  up e3 = true ->
  res_status r1 = 200 ->
  exists u,
    In u (users db1) /\ Users.email u = email
    /\ field "licenseKey" r1 = Some (JStr (Users.license_key u))
    /\ r2 = license_found u
    /\ db2 = db1
    /\ ((r1 = license_found u /\ rows_of_email email db <> [] /\ db1 = db)
        \/ (r1 = license_created (Users.license_key u) email u
            /\ rows_of_email email db = []
            /\ users db1 = users db ++ [u]
            /\ Users.status u = "active"
            /\ generateEmailBasedLicense email = Some (Users.license_key u))).
Proof.
  unfold request_twice. intros H Hup H200.
  destruct (post_api_request_license e1 e2 (Some email) db) as [d1 q1] eqn:F.
  cbn [fst] in H. injection H as -> -> S2.
  unfold post_api_request_license, request_license_lookup in F.
  destruct (negb (present (Some email))); [injection F as <- <-; discriminate|].
  destruct (emailRegex_test email) eqn:V; cbn [negb] in F;
    [|injection F as <- <-; discriminate].
  destruct (select_users_by_email e1 email db) as [[|u rest]|x] eqn:Sel;
    [| |injection F as <- <-; discriminate].
  - pose proof (select_users_by_email_no_nul _ _ _ _ Sel) as N.
    apply select_users_by_email_ok in Sel as [_ Sel].
    destruct (request_license_insert_ok _ _ _ _ _ (valid_email_no_blank _ V) F H200)
      as (key & u & G & Hu & K & -> & ->).
    assert (Users.email u = email) as Eu by (subst u; reflexivity).
    assert (Users.license_key u = key) as Ku by (subst u; reflexivity).
    pose proof (rows_of_email_last email db u (S (users_id_seq db)) N Eu) as R.
    rewrite Sel in R. cbn [app] in R.
    rewrite (request_license_existing e3 e4 email _ u [] Hup V R) in S2.
    injection S2 as <- <-.
    exists u. rewrite Ku.
    split; [cbn [with_users users]; apply in_or_app; right; now left|].
    split; [exact Eu|]. split; [reflexivity|]. split; [reflexivity|].
    split; [reflexivity|]. right.
    repeat split; auto. now subst u.
  - injection F as <- <-.
    apply select_users_by_email_ok in Sel as [_ Sel].
    rewrite (request_license_existing e3 e4 email _ u rest Hup V Sel) in S2.
    injection S2 as <- <-.
    assert (In u (rows_of_email email db)) as Hin by (rewrite Sel; now left).
    apply rows_of_email_in in Hin as [Hin He].
    exists u. repeat split; auto.
    left. repeat split. rewrite Sel. discriminate.
Qed.

Lemma request_license_twice_witness :
  exists u,
    In u (users (sample_db "active")) /\ Users.email u = "test@example.com"
    /\ field "licenseKey" (license_created sample_key "test@example.com"
                             (sample_user "active"))
       = Some (JStr (Users.license_key u))
    /\ license_found (sample_user "active") = license_found u
    /\ sample_db "active" = sample_db "active"
    /\ ((license_created sample_key "test@example.com" (sample_user "active")
         = license_found u
         /\ rows_of_email "test@example.com" empty_db <> []
         /\ sample_db "active" = empty_db)
        \/ (license_created sample_key "test@example.com" (sample_user "active")
            = license_created (Users.license_key u) "test@example.com" u
            /\ rows_of_email "test@example.com" empty_db = []
            /\ users (sample_db "active") = users empty_db ++ [u]
            /\ Users.status u = "active"
            /\ generateEmailBasedLicense "test@example.com"
               = Some (Users.license_key u))).
Proof.
  apply (request_license_twice (up_env 10) (up_env 10) (up_env 11) (up_env 11)
           "test@example.com" empty_db (sample_db "active") (sample_db "active")
           (license_created sample_key "test@example.com" (sample_user "active"))
           (license_found (sample_user "active"))).
  - vm_compute. reflexivity.
  - reflexivity.
  - reflexivity.
Defined.

(** ** The uniqueness the store enforces *)

Lemma NoDup_snoc {A} (l : list A) (x : A) :
  NoDup l -> ~ In x l -> NoDup (l ++ [x]).
Proof.
  induction l as [|a l IH]; cbn; intros Hl Hx.
  - constructor; [tauto|constructor].
  - inversion Hl as [|? ? Ha Hl']; subst. constructor.
    + intros Hin. apply in_app_or in Hin as [Hin|[Hin|[]]]; [tauto|].
      subst. tauto.
    + apply IH; tauto.
Qed.



(** The rows of an upsert that meets a conflict are the rows before it,
    in another order. *)
Lemma filter_split {A} (p : A -> bool) (l : list A) :
  Permutation (filter (fun x => negb (p x)) l ++ filter p l) l.
Proof.
  induction l as [|a l IH]; cbn [filter]; [constructor|].
  destruct (p a); cbn [negb app].
  - apply Permutation_sym, Permutation_cons_app, Permutation_sym, IH.
  - now constructor.
Qed.







Lemma upsert_user_data_keeps_users (en : env) (key dtype : string) (c : json)
    (db : database) :
  users (fst (upsert_user_data en key dtype c db)) = users db.
Proof.
  destruct (upsert_user_data_refused en key dtype c db) as [x ->]. reflexivity.
Qed.



(** No upload ever stores a row: [user_data] is empty in every reachable
    store, so no slot has two rows. *)
Lemma reachable_no_user_data (db : database) :
  reachable db -> user_data db = [].
Proof.
  induction 1 as [|en q db _ IH]; [reflexivity|].
  destruct q; cbn [exec].
  - unfold insert_user. destruct (up en); [|exact IH].
    destruct (no_nul key && no_nul email); [|exact IH].
    destruct (varchar 255 key), (varchar 255 email); try exact IH.
    now destruct (has_key _ _).
  - unfold upsert_user. destruct (up en); [|exact IH].
    destruct (no_nul key && no_nul email); [|exact IH].
    destruct (has_arbiter _ _); [|exact IH].
    destruct (varchar 255 key), (varchar 255 email); try exact IH.
    now destruct (find _ _).
  - unfold update_status_by_email. destruct (up en); [|exact IH].
    destruct (no_nul st && no_nul email); [|exact IH].
    now destruct (varchar 50 st).
  - unfold delete_users_by_email. destruct (up en); [|exact IH].
    destruct (no_nul email); [|exact IH].
    cbn [fst user_data]. now rewrite IH.
  - destruct (upsert_user_data_refused en key dtype c db) as [x ->]. exact IH.
Qed.

(** *** The routes stay among the reachable stores *)

Lemma request_license_insert_reachable (en : env) (email : string) (db : database) :
  reachable db -> reachable (fst (request_license_insert en email db)).
Proof.
  intros H. unfold request_license_insert.
  destruct (generateEmailBasedLicense email) as [key|]; [|exact H].
  pose proof (reachable_exec en (InsertUser key email) db H) as R.
  cbn [exec] in R. now destruct (insert_user en key email db) as [db' [u|x]].
Qed.

Lemma request_license_reachable (e1 e2 : env) (email : option string) (db : database) :
  reachable db -> reachable (fst (post_api_request_license e1 e2 email db)).
Proof.
  intros H. unfold post_api_request_license.
  destruct (request_license_lookup e1 email db); [exact H|].
  now apply request_license_insert_reachable.
Qed.

Lemma activateLicense_store (en : env) (licenseKey email : value) (db : database) :
  fst (activateLicense en licenseKey email db)
  = fst (upsert_user en (value_bound licenseKey) (value_bound email) db).
Proof.
  unfold activateLicense.
  destruct (upsert_user en (value_bound licenseKey) (value_bound email) db)
    as [db' [u|x]]; [|reflexivity].
  now destruct (is_string licenseKey).
Qed.



Lemma generate_license_reachable (e1 e2 : env) (email : option json) (db : database) :
  reachable db -> reachable (fst (post_api_generate_license e1 e2 email db)).
Proof.
  intros H. unfold post_api_generate_license.
  destruct email as [[| | |em| | |]|]; try exact H.
  destruct (String.eqb em ""); [exact H|].
  destruct (negb (emailRegex_test em)); [exact H|].
  destruct (select_users_by_email e1 em db) as [[|u rest]|x]; [| |exact H].
  - destruct (generateEmailBasedLicense em) as [key|]; [|exact H].
    pose proof (reachable_exec e2 (InsertUser key em) db H) as R.
    cbn [exec] in R. now destruct (insert_user e2 key em db) as [db' [v|x]].
  - destruct (String.eqb (Users.status u) "active"); [exact H|].
    pose proof (reachable_exec e2 (UpdateStatusByEmail "active" em) db H) as R.
    cbn [exec] in R.
    now destruct (update_status_by_email e2 "active" em db) as [db' [v|x]].
Qed.

Lemma reset_email_reachable (en : env) (email : option string) (db : database) :
  reachable db -> reachable (fst (post_api_dev_reset_email en email db)).
Proof.
  intros H. unfold post_api_dev_reset_email.
  destruct email as [em|]; [|exact H].
  destruct (negb (present (Some em))); [exact H|].
  pose proof (reachable_exec en (DeleteUsersByEmail em) db H) as R.
  cbn [exec] in R. now destruct (delete_users_by_email en em db) as [db' [v|x]].
Qed.

Lemma webhook_reachable (en : env) (draw : nat -> nat) (verified : bool)
    (event_type : string) (customerEmail : option string) (db : database) :
  reachable db ->
  reachable (fst (post_webhook en draw verified event_type customerEmail db)).
Proof.
  intros H. unfold post_webhook, handleCheckoutCompleted.
  destruct (negb verified); [exact H|]. cbn [fst].
  destruct (String.eqb event_type "checkout.session.completed"); [|exact H].
  destruct customerEmail as [em|]; [|exact H].
  destruct (negb (present (Some em))); [exact H|].
  rewrite activateLicense_strings.
  exact (reachable_exec en (UpsertUser (generateLicenseKey draw) em) db H).
Qed.



Lemma sync_upload_reachable (ev e1 e2 : env) (licenseKey dataType : option string)
    (data : option json) (db : database) :
  reachable db ->
  reachable (fst (post_api_sync_upload ev e1 e2 licenseKey dataType data db)).
Proof.
  intros H. unfold post_api_sync_upload.
  destruct licenseKey as [key|], data as [d|]; try exact H.
  destruct (negb (present (Some key)) || negb (truthy d)); [exact H|].
  destruct (negb (valid (verifyLicense ev key db))); [exact H|].
  now destruct (saveUserData_throws e1 e2 key (data_type_or_notes dataType) d db)
    as [x ->].
Qed.

(** With no row ever stored, no slot of [user_data] has two. *)
Lemma reachable_one_row_per_slot (db : database) :
  reachable db -> one_row_per_slot db.
Proof.
  intros H. unfold one_row_per_slot.
  rewrite (reachable_no_user_data db H). constructor.
Qed.

(** ** Interleaved requests for one email *)














(** ** The language of the email pattern *)

Lemma append_empty (s1 s2 : string) : (s1 ++ s2)%string = "" -> s1 = "" /\ s2 = "".
Proof. destruct s1; cbn; [auto|discriminate]. Qed.

Lemma nullable_accepts (r : Regex.re) : Regex.nullable r = true <-> accepts r "".
Proof.
  split.
  - induction r; cbn; intros H; try discriminate.
    + constructor.
    + apply andb_true_iff in H as [H1 H2].
      change "" with ("" ++ "")%string. constructor; auto.
    + apply orb_true_iff in H as [H|H];
        [apply accepts_alt_l|apply accepts_alt_r]; auto.
    + constructor.
  - intros H. remember "" as w eqn:E.
    induction H; cbn; try reflexivity; try discriminate.
    + apply append_empty in E as [-> ->]. now rewrite IHaccepts1, IHaccepts2.
    + now rewrite IHaccepts.
    + rewrite IHaccepts by exact E. apply orb_true_r.
Qed.

Lemma deriv_sound (c : ascii) (r : Regex.re) :
  forall s, accepts (Regex.deriv c r) s -> accepts r (String c s).
Proof.
  induction r; cbn; intros s H.
  - inversion H.
  - inversion H.
  - destruct (p c) eqn:E; inversion H; subst. now constructor.
  - inversion H as [| | | ? ? ? Hl | ? ? ? Hr | |]; subst.
    + inversion Hl as [| |? ? s1 s2 H1 H2| | | |]; subst.
      change (String c (s1 ++ s2)) with (String c s1 ++ s2)%string.
      constructor; auto.
    + destruct (Regex.nullable r1) eqn:N; [|inversion Hr].
      change (String c s) with ("" ++ String c s)%string.
      constructor; [now apply nullable_accepts|auto].
  - inversion H; subst; [apply accepts_alt_l|apply accepts_alt_r]; auto.
  - inversion H as [| |? ? s1 s2 H1 H2| | | |]; subst.
    change (String c (s1 ++ s2)) with (String c s1 ++ s2)%string.
    constructor; auto.
Qed.

Lemma deriv_complete (c : ascii) (r : Regex.re) (w : string) :
  accepts r w -> forall s, w = String c s -> accepts (Regex.deriv c r) s.
Proof.
  induction 1 as [|p a Hp|r1 r2 s1 s2 H1 IH1 H2 IH2|r1 r2 w H IH|r1 r2 w H IH
                  |r|r s1 s2 H1 IH1 H2 IH2]; intros s E; cbn.
  - discriminate.
  - injection E as -> <-. rewrite Hp. constructor.
  - destruct s1 as [|a s1]; cbn in E.
    + apply accepts_alt_r.
      assert (Regex.nullable r1 = true) as -> by now apply nullable_accepts.
      now apply IH2.
    + injection E as -> <-. apply accepts_alt_l. constructor; auto.
  - apply accepts_alt_l. auto.
  - apply accepts_alt_r. auto.
  - discriminate.
  - destruct s1 as [|a s1]; cbn in E.
    + now apply IH2.
    + injection E as -> <-. constructor; auto.
Qed.

(** The matcher decides the language. *)
Lemma matches_accepts (s : string) :
  forall r, Regex.matches r s = true <-> accepts r s.
Proof.
  induction s as [|c s IH]; intros r; cbn.
  - apply nullable_accepts.
  - rewrite IH. split; [apply deriv_sound|].
    intros H. now apply (deriv_complete c r (String c s)).
Qed.

Lemma accepts_star_class (p : ascii -> bool) (s : string) :
  accepts (Regex.Star (Regex.Class p)) s <-> all_chars p s = true.
Proof.
  split.
  - intros H. remember (Regex.Star (Regex.Class p)) as r eqn:E.
    induction H; try discriminate; [reflexivity|].
    injection E as ->. inversion H as [|? c Hc| | | | |]; subst. cbn.
    rewrite IHaccepts2 by reflexivity. now rewrite Hc.
  - induction s as [|c s IH]; cbn; intros H; [constructor|].
    apply andb_true_iff in H as [Hc Hs].
    change (String c s) with (String c "" ++ s)%string.
    constructor; [now constructor|auto].
Qed.

Lemma accepts_plus_class (p : ascii -> bool) (s : string) :
  accepts (Regex.Plus (Regex.Class p)) s <-> s <> "" /\ all_chars p s = true.
Proof.
  unfold Regex.Plus. split.
  - intros H. inversion H as [| |? ? s1 s2 H1 H2| | | |]; subst.
    inversion H1 as [|? c Hc| | | | |]; subst.
    apply accepts_star_class in H2. cbn.
    split; [discriminate|]. now rewrite H2, Hc.
  - intros [N H]. destruct s as [|c s]; [congruence|]. cbn in H.
    apply andb_true_iff in H as [Hc Hs].
    change (String c s) with (String c "" ++ s)%string.
    constructor; [now constructor|now apply accepts_star_class].
Qed.

Lemma accepts_char (a : ascii) (s : string) :
  accepts (Regex.Class (is_char a)) s <-> s = String a "".
Proof.
  split.
  - intros H. inversion H as [|? c Hc| | | | |]; subst.
    apply Ascii.eqb_eq in Hc. now subst.
  - intros ->. constructor. apply Ascii.eqb_refl.
Qed.

(** X1. The email pattern accepts exactly the strings [l@d.t] whose three
    parts are non-empty and free of white space and of [@]. *)
Theorem emailRegex_test_shape (email : string) :
  emailRegex_test email = true
  <-> exists l d t,
        email = (l ++ "@" ++ d ++ "." ++ t)%string
        /\ l <> "" /\ d <> "" /\ t <> ""
        /\ all_chars not_space_at l = true
        /\ all_chars not_space_at d = true
        /\ all_chars not_space_at t = true.
Proof.
  unfold emailRegex_test. rewrite matches_accepts. unfold emailRegex. split.
  - intros H.
    inversion H as [| |? ? l s1 Hl H1| | | |]; subst.
    inversion H1 as [| |? ? a s2 Ha H2| | | |]; subst.
    inversion H2 as [| |? ? d s3 Hd H3| | | |]; subst.
    inversion H3 as [| |? ? b t Hb Ht| | | |]; subst.
    apply accepts_plus_class in Hl as [Nl Al], Hd as [Nd Ad], Ht as [Nt At].
    apply accepts_char in Ha, Hb. subst a b.
    exists l, d, t. repeat split; auto.
  - intros (l & d & t & -> & Nl & Nd & Nt & Al & Ad & At).
    constructor; [now apply accepts_plus_class|].
    change ("@" ++ d ++ "." ++ t)%string with ("@" ++ (d ++ "." ++ t))%string.
    constructor; [now apply accepts_char|].
    constructor; [now apply accepts_plus_class|].
    constructor; [now apply accepts_char|now apply accepts_plus_class].
Qed.

(** ** Verification of a key *)

Lemma verifyLicense_find (en : env) (key : string) (db : database) :
  verifyLicense en key db
  = if up en
    then match active_license key db with
         | Some u => mkLicenseResult true (Some u)
         | None => mkLicenseResult false None
         end
    else mkLicenseResult false None.
Proof.
  unfold verifyLicense, select_users_by_key_status, active_license.
  destruct (up en); [|reflexivity].
  rewrite filter_head_find. now destruct (filter _ (users db)).
Qed.

Lemma active_license_some (key : string) (db : database) (u : Users.row) :
  active_license key db = Some u ->
  In u (users db) /\ Users.license_key u = key /\ Users.status u = "active".
Proof.
  unfold active_license. intros H. apply find_some in H as [Hin H].
  apply andb_true_iff in H as [Hk Hs].
  apply String.eqb_eq in Hk, Hs. auto.
Qed.

Lemma active_license_none (key : string) (db : database) (u : Users.row) :
  active_license key db = None ->
  In u (users db) -> Users.license_key u = key -> Users.status u <> "active".
Proof.
  unfold active_license. intros H Hin Hk Hs.
  pose proof (find_none _ _ H u Hin) as N. cbn in N.
  rewrite Hk, Hs, !String.eqb_refl in N. discriminate.
Qed.

(** X2. [POST /api/verify-license] with a non-empty key answers 200
    exactly when the store answers and the key has an active row; it then
    reports the email, plan, status and creation time of the first such
    row, and in every other case answers 404 "License not found or
    inactive". *)
Theorem verify_license_answers (en : env) (key : string) (db : database) :
  key <> "" ->
  (res_status (post_api_verify_license en (Some (JStr key)) db) = 200
   <-> up en = true
       /\ exists u, In u (users db) /\ Users.license_key u = key
                    /\ Users.status u = "active")
  /\ (post_api_verify_license en (Some (JStr key)) db = not_found
      \/ exists u,
           In u (users db) /\ Users.license_key u = key
           /\ Users.status u = "active"
           /\ post_api_verify_license en (Some (JStr key)) db
              = res_json 200 [("success", JBool true);
                              ("message", JStr "License is valid");
                              ("user", user_summary u)]).
Proof.
  intros Hk. unfold post_api_verify_license.
  rewrite (string_eqb_false _ _ Hk), verifyLicense_find.
  destruct (up en).
  - destruct (active_license key db) as [u|] eqn:A; cbn [valid user].
    + pose proof (active_license_some _ _ _ A) as (Hin & Hkey & Hst).
      split; [|right; eauto].
      split; [eauto 6|reflexivity].
    + split; [|now left].
      split; [discriminate|].
      intros (_ & u & Hin & Hkey & Hst).
      now destruct (active_license_none _ _ _ A Hin Hkey).
  - cbn [valid user]. split; [|now left].
    split; [discriminate|]. intros [H _]. discriminate.
Qed.

Lemma verify_license_answers_witness :
  (res_status (post_api_verify_license (up_env 5) (Some (JStr sample_key))
                 (sample_db "active")) = 200
   <-> up (up_env 5) = true
       /\ exists u, In u (users (sample_db "active"))
                    /\ Users.license_key u = sample_key
                    /\ Users.status u = "active")
  /\ (post_api_verify_license (up_env 5) (Some (JStr sample_key)) (sample_db "active")
      = not_found
      \/ exists u,
           In u (users (sample_db "active")) /\ Users.license_key u = sample_key
           /\ Users.status u = "active"
           /\ post_api_verify_license (up_env 5) (Some (JStr sample_key))
                (sample_db "active")
              = res_json 200 [("success", JBool true);
                              ("message", JStr "License is valid");
                              ("user", user_summary u)]).
Proof.
  apply (verify_license_answers (up_env 5) sample_key (sample_db "active")).
  discriminate.
Defined.

Lemma substring_prefix_length (n : nat) (s : string) :
  String.length (String.substring 0 n s) <= n.
Proof.
  revert s. induction n as [|n IH]; intros [|c s]; cbn; try lia.
  specialize (IH s). lia.
Qed.

(** X3. [GET /api/license/:licenseKey/info] answers 200 exactly when
    verify-license does for the same key and store, and 404 otherwise;
    when it answers 200 the key it shows is the first eight characters of
    the key followed by three dots, at most eleven characters. *)
Theorem license_info_agrees_with_verify (en : env) (key : string) (db : database) :
  key <> "" ->
  res_status (get_api_license_info en key db)
  = res_status (post_api_verify_license en (Some (JStr key)) db)
  /\ (res_status (get_api_license_info en key db) = 200
      \/ get_api_license_info en key db
         = res_json 404 [("success", JBool false); ("error", JStr "License not found")])
  /\ (res_status (get_api_license_info en key db) = 200 ->
      exists u rest,
        In u (users db) /\ Users.license_key u = key
        /\ field "license" (get_api_license_info en key db)
           = Some (JObj (("key", JStr (masked_key key))
                         :: ("email", JStr (Users.email u)) :: rest)))
  /\ String.length (masked_key key) <= 11.
Proof.
  intros Hk. unfold get_api_license_info, post_api_verify_license.
  rewrite (string_eqb_false _ _ Hk), verifyLicense_find.
  assert (String.length (masked_key key) <= 11) as L.
  { unfold masked_key, Js.substring. rewrite string_length_app.
    pose proof (substring_prefix_length 8 key). cbn in *. lia. }
  destruct (up en); [destruct (active_license key db) as [u|] eqn:A|];
    cbn [valid user]; (split; [reflexivity|]).
  - pose proof (active_license_some _ _ _ A) as (Hin & Hkey & _).
    split; [now left|]. split; [|exact L].
    intros _. exists u. eexists. repeat split; auto.
  - split; [now right|]. split; [discriminate|exact L].
  - split; [now right|]. split; [discriminate|exact L].
Qed.

Lemma license_info_agrees_with_verify_witness :
  res_status (get_api_license_info (up_env 5) sample_key (sample_db "active"))
  = res_status (post_api_verify_license (up_env 5) (Some (JStr sample_key))
                  (sample_db "active"))
  /\ (res_status (get_api_license_info (up_env 5) sample_key (sample_db "active")) = 200
      \/ get_api_license_info (up_env 5) sample_key (sample_db "active")
         = res_json 404 [("success", JBool false); ("error", JStr "License not found")])
  /\ (res_status (get_api_license_info (up_env 5) sample_key (sample_db "active")) = 200 ->
      exists u rest,
        In u (users (sample_db "active")) /\ Users.license_key u = sample_key
        /\ field "license" (get_api_license_info (up_env 5) sample_key
                              (sample_db "active"))
           = Some (JObj (("key", JStr (masked_key sample_key))
                         :: ("email", JStr (Users.email u)) :: rest)))
  /\ String.length (masked_key sample_key) <= 11.
Proof.
  apply (license_info_agrees_with_verify (up_env 5) sample_key (sample_db "active")).
  discriminate.
Defined.

Example masked_sample_key : masked_key sample_key = "5550-2F4...".
Proof. reflexivity. Qed.

(** ** Activation, then verification *)

Lemma rebind_hit (en : env) (k e : string) (r : Users.row) :
  String.eqb (Users.license_key r) k = true ->
  rebind en k e r
  = Users.mkRow (Users.id r) (Users.license_key r) e "active" (Users.plan_type r)
      (Users.created_at r) (now en).
Proof. intros H. unfold rebind. now rewrite H. Qed.

Lemma rebind_miss (en : env) (k e : string) (r : Users.row) :
  String.eqb (Users.license_key r) k = false -> rebind en k e r = r.
Proof. intros H. unfold rebind. now rewrite H. Qed.

Lemma rebind_first_active (en : env) (k e : string) (rows : list Users.row)
    (old : Users.row) :
  find (has_license_key k) rows = Some old ->
  find (fun r => String.eqb (Users.license_key r) k
                 && String.eqb (Users.status r) "active")
       (map (rebind en k e) rows)
  = Some (rebind en k e old).
Proof.
  unfold has_license_key.
  induction rows as [|r rows IH]; cbn [find map]; [discriminate|].
  destruct (String.eqb (Users.license_key r) k) eqn:K.
  - intros [= <-]. rewrite (rebind_hit _ _ _ _ K).
    cbn [Users.license_key Users.status]. now rewrite K.
  - rewrite (rebind_miss _ _ _ _ K), K. exact IH.
Qed.

Lemma find_app_none {A} (f : A -> bool) (l : list A) (x : A) :
  find f l = None -> f x = true -> find f (l ++ [x]) = Some x.
Proof.
  induction l as [|a l IH]; cbn; intros H Hx; [now rewrite Hx|].
  destruct (f a); [discriminate|auto].
Qed.

Lemma find_weaken {A} (f g : A -> bool) (l : list A) :
  find f l = None -> find (fun x => f x && g x) l = None.
Proof.
  induction l as [|a l IH]; cbn; [reflexivity|].
  destruct (f a); [discriminate|exact IH].
Qed.

Lemma find_app_skip {A} (f : A -> bool) (l1 l2 : list A) :
  find f l1 = None -> find f (l1 ++ l2) = find f l2.
Proof.
  induction l1 as [|a l1 IH]; cbn; [reflexivity|].
  destruct (f a); [discriminate|exact IH].
Qed.

Lemma find_filter_same {A} (f : A -> bool) (l : list A) :
  find f (filter f l) = find f l.
Proof.
  induction l as [|a l IH]; cbn; [reflexivity|].
  destruct (f a) eqn:E; cbn; now rewrite ?E.
Qed.

Lemma find_filter_others (k : string) (g : Users.row -> bool)
    (rows : list Users.row) :
  find (fun r => String.eqb (Users.license_key r) k && g r)
       (filter (fun r => negb (has_license_key k r)) rows) = None.
Proof.
  unfold has_license_key. induction rows as [|r rows IH]; cbn; [reflexivity|].
  destruct (String.eqb (Users.license_key r) k) eqn:K; cbn; [exact IH|].
  now rewrite K.
Qed.

(** After an upsert that met a conflict, the key answers with its row as
    written anew. *)
Lemma rebound_first_active (en : env) (k e : string) (rows : list Users.row)
    (old : Users.row) :
  find (has_license_key k) rows = Some old ->
  find (fun r => String.eqb (Users.license_key r) k
                 && String.eqb (Users.status r) "active")
       (filter (fun r => negb (has_license_key k r)) rows
        ++ map (rebind en k e) (filter (has_license_key k) rows))
  = Some (rebind en k e old).
Proof.
  intros F. rewrite find_app_skip by apply find_filter_others.
  apply rebind_first_active. now rewrite find_filter_same.
Qed.

(** X4. After a successful [POST /api/activate-license] (store up, key
    and email strings, valid email, key and email of at most 255
    characters and without U+0000) the key verifies: verify-license for it
    answers 200 with the email of the caller and status active, whether
    the key was new or already in the store. *)
Theorem activate_then_verify (en ev : env) (key email : string) (db : database) :
  up en = true -> up ev = true ->
  key <> "" -> String.length key <= 255 -> no_nul key = true ->
  emailRegex_test email = true -> String.length email <= 255 ->
  no_nul email = true ->
  res_status (snd (post_api_activate_license en (Some key) (Some email) db)) = 200
  /\ exists u,
       active_license key (fst (post_api_activate_license en (Some key) (Some email) db))
       = Some u
       /\ Users.email u = email /\ Users.status u = "active"
       /\ Users.license_key u = key
       /\ post_api_verify_license ev (Some (JStr key))
            (fst (post_api_activate_license en (Some key) (Some email) db))
          = res_json 200 [("success", JBool true);
                          ("message", JStr "License is valid");
                          ("user", user_summary u)].
Proof.
  intros Hen Hev Hk Lk Nk Hv Le Ne.
  unfold post_api_activate_license, activate_license_route.
  cbn [option_map value_truthy value_string].
  rewrite activateLicense_strings. unfold upsert_user.
  rewrite (string_eqb_false _ _ Hk),
    (string_eqb_false _ _ (valid_email_not_empty _ Hv)), Hv, Hen, Nk, Ne.
  cbn [negb orb has_arbiter users_unique existsb same_columns forallb String.eqb
       Ascii.eqb Bool.eqb andb].
  rewrite (varchar_short _ _ Lk), (varchar_short _ _ Le).
  unfold post_api_verify_license.
  rewrite (string_eqb_false _ _ Hk).
  destruct (find _ (users db)) as [old|] eqn:F; cbn [fst snd res_status res_json];
    (split; [reflexivity|]); rewrite verifyLicense_find, Hev; unfold active_license;
    cbn [with_users users].
  - rewrite (rebound_first_active en key email _ old F). cbn [valid user].
    exists (rebind en key email old).
    apply find_some in F as [_ F]. unfold has_license_key in F.
    unfold rebind. rewrite F.
    apply String.eqb_eq in F. cbn. auto.
  - rewrite (find_app_none _ _
               (Users.mkRow (S (users_id_seq db)) key email "active" "premium"
                  (now en) (now en)));
      [| now apply (find_weaken (has_license_key key))
       | cbn; now rewrite String.eqb_refl].
    cbn [valid user]. eexists. repeat split; reflexivity.
Qed.

Lemma activate_then_verify_witness :
  res_status (snd (post_api_activate_license (up_env 60) (Some sample_key)
                     (Some "other@example.org") (sample_db "inactive"))) = 200
  /\ exists u,
       active_license sample_key
         (fst (post_api_activate_license (up_env 60) (Some sample_key)
                 (Some "other@example.org") (sample_db "inactive")))
       = Some u
       /\ Users.email u = "other@example.org" /\ Users.status u = "active"
       /\ Users.license_key u = sample_key
       /\ post_api_verify_license (up_env 61) (Some (JStr sample_key))
            (fst (post_api_activate_license (up_env 60) (Some sample_key)
                    (Some "other@example.org") (sample_db "inactive")))
          = res_json 200 [("success", JBool true);
                          ("message", JStr "License is valid");
                          ("user", user_summary u)].
Proof.
  apply (activate_then_verify (up_env 60) (up_env 61) sample_key "other@example.org"
           (sample_db "inactive")).
  - reflexivity.
  - reflexivity.
  - discriminate.
  - cbn. lia.
  - reflexivity.
  - reflexivity.
  - cbn. lia.
  - reflexivity.
Defined.

(** ** Downloads *)

Lemma latest_none (rows : list UserData.row) : latest rows = None -> rows = [].
Proof.
  destruct rows as [|d rest]; cbn [latest]; [reflexivity|]. intros H.
  destruct (latest rest) as [d'|]; [|discriminate H].
  destruct (UserData.updated_at d <? UserData.updated_at d'); discriminate H.
Qed.

(** [latest] picks a row that no other row is newer than. *)
Lemma latest_newest (rows : list UserData.row) (d : UserData.row) :
  latest rows = Some d ->
  In d rows
  /\ forall d', In d' rows -> UserData.updated_at d' <= UserData.updated_at d.
Proof.
  revert d. induction rows as [|a rest IH]; cbn [latest In]; intros d H;
    [discriminate|].
  destruct (latest rest) as [b|] eqn:L.
  - destruct (IH b eq_refl) as [Hin Hmax].
    destruct (UserData.updated_at a <? UserData.updated_at b) eqn:C;
      injection H as <-.
    + apply Nat.ltb_lt in C. split; [now right|].
      intros d' [<-|Hd]; [lia|auto].
    + apply Nat.ltb_ge in C. split; [now left|].
      intros d' [<-|Hd]; [lia|]. specialize (Hmax d' Hd). lia.
  - injection H as <-. apply latest_none in L. subst rest.
    split; [now left|]. intros d' [<-|[]]. lia.
Qed.

(** X5. A download for a key that verifies, with the store answering,
    returns the content and modification time of a row of that key and
    data type that no other such row is newer than; when there is no row
    for the key and type it answers 200 with [data: null]. *)
Theorem download_returns_latest (ev eg : env) (key : string)
    (dataType : option string) (db : database) :
  up eg = true -> valid (verifyLicense ev key db) = true ->
  ((forall d, In d (user_data db) ->
              same_slot key (data_type_or_notes dataType) d = false)
   /\ get_api_sync_download ev eg key dataType db = no_data)
  \/ exists d,
       In d (user_data db)
       /\ UserData.license_key d = key
       /\ UserData.data_type d = data_type_or_notes dataType
       /\ (forall d', In d' (user_data db) ->
                      same_slot key (data_type_or_notes dataType) d' = true ->
                      UserData.updated_at d' <= UserData.updated_at d)
       /\ get_api_sync_download ev eg key dataType db
          = res_json 200 [("success", JBool true);
                          ("data", UserData.content d);
                          ("last_modified", JDate (UserData.updated_at d))].
Proof.
  intros Hup Hv. unfold get_api_sync_download, getUserData, select_user_data.
  rewrite Hv, Hup. cbn [negb].
  destruct (latest _) as [d|] eqn:L.
  - right. exists d. apply latest_newest in L as [Hin Hmax].
    apply filter_In in Hin as [Hin Hs].
    pose proof Hs as Hs'. unfold same_slot in Hs'.
    apply andb_true_iff in Hs' as [Hk Ht]. apply String.eqb_eq in Hk, Ht.
    repeat split; auto.
    intros d' Hd' Hs2. apply Hmax. apply filter_In. auto.
  - left. apply latest_none in L. split; [|reflexivity].
    intros d Hd. destruct (same_slot _ _ d) eqn:S; [|reflexivity].
    assert (In d (filter (same_slot key (data_type_or_notes dataType)) (user_data db)))
      as Hin by (apply filter_In; auto).
    rewrite L in Hin. destruct Hin.
Qed.

Lemma download_returns_latest_witness :
  get_api_sync_download (up_env 5) (up_env 6) sample_key None sample_db_with_notes
  = res_json 200 [("success", JBool true);
                  ("data", JStr "second");
                  ("last_modified", JDate 2)].
Proof.
  destruct (download_returns_latest (up_env 5) (up_env 6) sample_key None
              sample_db_with_notes eq_refl eq_refl)
    as [[H _]|(d & Hin & _ & _ & Hmax & ->)].
  - specialize (H (sample_notes 1 "first") (or_introl eq_refl)). discriminate H.
  - destruct Hin as [<-|[<-|[]]]; [|reflexivity].
    specialize (Hmax (sample_notes 2 "second") (or_intror (or_introl eq_refl)) eq_refl).
    cbn in Hmax. lia.
Defined.

(** ** Resetting an email *)

Lemma filter_all {A} (f : A -> bool) (l : list A) :
  (forall x, In x l -> f x = true) -> filter f l = l.
Proof.
  induction l as [|a l IH]; cbn; intros H; [reflexivity|].
  rewrite (H a) by now left. f_equal. apply IH. intros x Hx. apply H. now right.
Qed.

Lemma rows_of_email_nil (email : string) (db : database) (u : Users.row) :
  no_nul email = true ->
  rows_of_email email db = [] -> In u (users db) -> Users.email u <> email.
Proof.
  intros N H Hin He. rewrite (rows_of_email_filter _ _ N) in H.
  assert (In u (filter (fun r => String.eqb (Users.email r) email) (users db))) as X.
  { apply filter_In. split; [exact Hin|]. subst. apply String.eqb_refl. }
  rewrite H in X. destruct X.
Qed.

(** X6. A successful [POST /api/dev/reset-email] (store up, an email
    string that is not empty and has no U+0000, which the store would
    refuse) removes every row of exactly that email and no other row,
    leaves no data row without its license, and the email then has no
    license for check-email. *)
Theorem reset_email_removes (en ec : env) (email : string) (db : database) :
  up en = true -> up ec = true -> email <> "" -> no_nul email = true ->
  res_status (snd (post_api_dev_reset_email en (Some email) db)) = 200
  /\ rows_of_email email (fst (post_api_dev_reset_email en (Some email) db)) = []
  /\ (forall r, Users.email r <> email ->
                (In r (users (fst (post_api_dev_reset_email en (Some email) db)))
                 <-> In r (users db)))
  /\ (forall d, In d (user_data (fst (post_api_dev_reset_email en (Some email) db))) ->
                In d (user_data db)
                /\ has_key (UserData.license_key d)
                     (users (fst (post_api_dev_reset_email en (Some email) db))) = true)
  /\ get_api_check_email ec email (fst (post_api_dev_reset_email en (Some email) db))
     = res_json 200 [("success", JBool true); ("hasLicense", JBool false)].
Proof.
  intros Hen Hec He Hn.
  unfold post_api_dev_reset_email, delete_users_by_email.
  rewrite (present_some _ He), Hen, Hn. cbn [negb fst snd res_status res_json].
  assert (filter (fun r => String.eqb (Users.email r) email)
            (filter (fun r => negb (String.eqb (Users.email r) email)) (users db)) = [])
    as E.
  { apply filter_none. intros r Hr. apply filter_In in Hr as [_ Hr].
    now apply negb_true_iff in Hr. }
  split; [reflexivity|].
  split; [now rewrite (rows_of_email_filter _ _ Hn)|]. split; [|split].
  - intros r Hr. cbn [users]. rewrite filter_In.
    rewrite (string_eqb_false _ _ Hr). cbn. tauto.
  - intros d Hd. cbn [user_data users] in *. now apply filter_In in Hd.
  - unfold get_api_check_email, select_users_by_email.
    rewrite (string_eqb_false _ _ He), Hec, Hn. cbn [users]. now rewrite E.
Qed.

Lemma reset_email_removes_witness :
  res_status (snd (post_api_dev_reset_email (up_env 7) (Some "test@example.com")
                     sample_db_with_notes)) = 200
  /\ rows_of_email "test@example.com"
       (fst (post_api_dev_reset_email (up_env 7) (Some "test@example.com")
               sample_db_with_notes)) = []
  /\ (forall r, Users.email r <> "test@example.com" ->
                (In r (users (fst (post_api_dev_reset_email (up_env 7)
                                     (Some "test@example.com") sample_db_with_notes)))
                 <-> In r (users sample_db_with_notes)))
  /\ (forall d, In d (user_data (fst (post_api_dev_reset_email (up_env 7)
                                        (Some "test@example.com") sample_db_with_notes))) ->
                In d (user_data sample_db_with_notes)
                /\ has_key (UserData.license_key d)
                     (users (fst (post_api_dev_reset_email (up_env 7)
                                    (Some "test@example.com") sample_db_with_notes)))
                   = true)
  /\ get_api_check_email (up_env 8) "test@example.com"
       (fst (post_api_dev_reset_email (up_env 7) (Some "test@example.com")
               sample_db_with_notes))
     = res_json 200 [("success", JBool true); ("hasLicense", JBool false)].
Proof.
  apply (reset_email_removes (up_env 7) (up_env 8) "test@example.com"
           sample_db_with_notes).
  - reflexivity.
  - reflexivity.
  - discriminate.
  - reflexivity.
Defined.

Example reset_cascades :
  fst (post_api_dev_reset_email (up_env 7) (Some "test@example.com")
         sample_db_with_notes)
  = mkDatabase [] 1 [] 2.
Proof. reflexivity. Qed.

(** X7. Creating a license by [POST /api/request-license] and resetting
    the email undoes the creation: for a valid email of at most 255
    characters and without U+0000 that has no row and whose derived key is
    free, the rows of [users] after the request and the reset are those
    before. *)
Theorem request_then_reset (e1 e2 e3 : env) (email : string) (db : database) :
  up e1 = true -> up e2 = true -> up e3 = true ->
  emailRegex_test email = true -> String.length email <= 255 ->
  no_nul email = true ->
  rows_of_email email db = [] ->
  (forall key, generateEmailBasedLicense email = Some key ->
               has_key key (users db) = false) ->
  res_status (snd (post_api_request_license e1 e2 (Some email) db)) = 200
  /\ List.length (users (fst (post_api_request_license e1 e2 (Some email) db)))
     = S (List.length (users db))
  /\ users (fst (post_api_dev_reset_email e3 (Some email)
                   (fst (post_api_request_license e1 e2 (Some email) db))))
     = users db.
Proof.
  intros H1 H2 H3 V L N R K.
  pose proof (generateEmailBasedLicense_total email) as G.
  rewrite (request_license_fresh e1 e2 email _ db H1 H2 V L N R G (K _ G)).
  cbn [fst snd with_users users license_created res_status res_json].
  split; [reflexivity|]. split; [rewrite length_app; cbn; lia|].
  unfold post_api_dev_reset_email, delete_users_by_email.
  rewrite (present_some _ (valid_email_not_empty _ V)), H3, N.
  cbn [negb fst users with_users]. rewrite filter_app. cbn [filter Users.email].
  rewrite String.eqb_refl. cbn [negb]. rewrite app_nil_r.
  apply filter_all. intros r Hr.
  apply negb_true_iff, String.eqb_neq. now apply (rows_of_email_nil email db).
Qed.

Lemma request_then_reset_witness :
  res_status (snd (post_api_request_license (up_env 1) (up_env 2)
                     (Some "new@example.com") (sample_db "active"))) = 200
  /\ List.length (users (fst (post_api_request_license (up_env 1) (up_env 2)
                                (Some "new@example.com") (sample_db "active"))))
     = S (List.length (users (sample_db "active")))
  /\ users (fst (post_api_dev_reset_email (up_env 3) (Some "new@example.com")
                   (fst (post_api_request_license (up_env 1) (up_env 2)
                           (Some "new@example.com") (sample_db "active")))))
     = users (sample_db "active").
Proof.
  apply (request_then_reset (up_env 1) (up_env 2) (up_env 3) "new@example.com"
           (sample_db "active")).
  - reflexivity.
  - reflexivity.
  - reflexivity.
  - reflexivity.
  - cbn. lia.
  - reflexivity.
  - reflexivity.
  - intros key G. vm_compute in G. injection G as <-. reflexivity.
Defined.

(** ** Requests, generation and lookups together *)

(** X8. After a successful [POST /api/request-license] for an email,
    check-email for the same email (store up) reports a license and the
    very key the request answered. *)
Theorem request_then_check_email (e1 e2 ec : env) (email : string)
    (db db1 : database) (r1 : response) :
  post_api_request_license e1 e2 (Some email) db = (db1, r1) ->
  res_status r1 = 200 -> up ec = true ->
  exists key,
    field "licenseKey" r1 = Some (JStr key)
    /\ field "licenseKey" (get_api_check_email ec email db1) = Some (JStr key)
    /\ field "hasLicense" (get_api_check_email ec email db1) = Some (JBool true)
    /\ res_status (get_api_check_email ec email db1) = 200.
Proof.
  intros F H200 Hec.
  unfold post_api_request_license, request_license_lookup in F.
  destruct (negb (present (Some email))); [injection F as <- <-; discriminate|].
  destruct (emailRegex_test email) eqn:V; cbn [negb] in F;
    [|injection F as <- <-; discriminate].
  pose proof (valid_email_not_empty _ V) as Ne.
  destruct (select_users_by_email e1 email db) as [[|u rest]|x] eqn:Sel;
    [| |injection F as <- <-; discriminate];
    pose proof (select_users_by_email_no_nul _ _ _ _ Sel) as N;
    unfold get_api_check_email, select_users_by_email;
    rewrite (string_eqb_false _ _ Ne), Hec, N.
  - apply select_users_by_email_ok in Sel as [_ Sel].
    destruct (request_license_insert_ok _ _ _ _ _ (valid_email_no_blank _ V) F H200)
      as (key & u & G & Hu & K & -> & ->).
    assert (Users.email u = email) as Eu by (subst u; reflexivity).
    pose proof (rows_of_email_last email db u (S (users_id_seq db)) N Eu) as R.
    rewrite Sel, (rows_of_email_filter _ _ N) in R. rewrite R.
    exists key. subst u. repeat split; reflexivity.
  - injection F as <- <-.
    apply select_users_by_email_ok in Sel as [_ Sel].
    rewrite (rows_of_email_filter _ _ N) in Sel. rewrite Sel.
    exists (Users.license_key u). repeat split; reflexivity.
Qed.

Lemma request_then_check_email_witness :
  exists key,
    field "licenseKey" (license_created sample_key "test@example.com"
                          (sample_user "active")) = Some (JStr key)
    /\ field "licenseKey" (get_api_check_email (up_env 12) "test@example.com"
                             (sample_db "active")) = Some (JStr key)
    /\ field "hasLicense" (get_api_check_email (up_env 12) "test@example.com"
                             (sample_db "active")) = Some (JBool true)
    /\ res_status (get_api_check_email (up_env 12) "test@example.com"
                     (sample_db "active")) = 200.
Proof.
  apply (request_then_check_email (up_env 10) (up_env 10) (up_env 12)
           "test@example.com" empty_db (sample_db "active")
           (license_created sample_key "test@example.com" (sample_user "active"))).
  - vm_compute. reflexivity.
  - reflexivity.
  - reflexivity.
Defined.

Lemma has_code_unique_violation : has_code (PgError UniqueViolation) "23505" = true.
Proof. reflexivity. Qed.

(** X9. When an email (valid, of at most 255 characters and without
    U+0000) has no row but its derived key is already in the store (under
    another spelling of the address, or activated by hand), a request for
    a license adds nothing: [POST /api/request-license] answers 500
    "Failed to process license request", and [POST /api/generate-license]
    answers 409 "License generation conflict". *)
Theorem derived_key_taken (e1 e2 : env) (email key : string) (db : database) :
  up e1 = true -> up e2 = true ->
  emailRegex_test email = true -> String.length email <= 255 ->
  no_nul email = true ->
  rows_of_email email db = [] ->
  generateEmailBasedLicense email = Some key ->
  has_key key (users db) = true ->
  snd (post_api_request_license e1 e2 (Some email) db) = request_failed
  /\ users (fst (post_api_request_license e1 e2 (Some email) db)) = users db
  /\ snd (post_api_generate_license e1 e2 (Some (JStr email)) db)
     = res_json 409 [("success", JBool false);
                     ("error", JStr "License generation conflict. Please try again.")]
  /\ users (fst (post_api_generate_license e1 e2 (Some (JStr email)) db)) = users db.
Proof.
  intros H1 H2 V L N R G K.
  pose proof (valid_email_not_empty _ V) as Ne.
  unfold post_api_request_license, request_license_lookup,
    post_api_generate_license, select_users_by_email.
  rewrite (rows_of_email_filter _ _ N) in R.
  rewrite (present_some _ Ne), (string_eqb_false _ _ Ne), V, H1, N, R.
  cbn [negb]. unfold request_license_insert, insert_user.
  rewrite G, H2, (derived_key_no_nul _ _ G), N, (varchar_key _ _ G),
    (varchar_short _ _ L), K.
  cbn [andb fst snd with_users users]. rewrite has_code_unique_violation.
  repeat split; reflexivity.
Qed.

Lemma derived_key_taken_witness :
  snd (post_api_request_license (up_env 1) (up_env 2) (Some "Test@Example.com")
         (sample_db "active")) = request_failed
  /\ users (fst (post_api_request_license (up_env 1) (up_env 2)
                   (Some "Test@Example.com") (sample_db "active")))
     = users (sample_db "active")
  /\ snd (post_api_generate_license (up_env 1) (up_env 2)
            (Some (JStr "Test@Example.com")) (sample_db "active"))
     = res_json 409 [("success", JBool false);
                     ("error", JStr "License generation conflict. Please try again.")]
  /\ users (fst (post_api_generate_license (up_env 1) (up_env 2)
                   (Some (JStr "Test@Example.com")) (sample_db "active")))
     = users (sample_db "active").
Proof.
  apply (derived_key_taken (up_env 1) (up_env 2) "Test@Example.com" sample_key
           (sample_db "active")).
  - reflexivity.
  - reflexivity.
  - reflexivity.
  - cbn. lia.
  - reflexivity.
  - reflexivity.
  - vm_compute. reflexivity.
  - reflexivity.
Defined.

(** X10. [POST /api/generate-license] and [POST /api/request-license]
    do the same to the store and answer the same license key (or none),
    for every email whose first row, if it has rows, is active: they
    differ only on an inactive license. *)
Theorem generate_agrees_with_request (e1 e2 : env) (email : string) (db : database) :
  (forall u rest, rows_of_email email db = u :: rest -> Users.status u = "active") ->
  fst (post_api_generate_license e1 e2 (Some (JStr email)) db)
  = fst (post_api_request_license e1 e2 (Some email) db)
  /\ field "licenseKey" (snd (post_api_generate_license e1 e2 (Some (JStr email)) db))
     = field "licenseKey" (snd (post_api_request_license e1 e2 (Some email) db))
  /\ (res_status (snd (post_api_generate_license e1 e2 (Some (JStr email)) db)) = 200
      <-> res_status (snd (post_api_request_license e1 e2 (Some email) db)) = 200).
Proof.
  intros Hact.
  unfold post_api_generate_license, post_api_request_license, request_license_lookup,
    request_license_insert, present.
  destruct (String.eqb email ""); cbn [negb]; [repeat split; discriminate|].
  destruct (emailRegex_test email); cbn [negb]; [|repeat split; discriminate].
  destruct (select_users_by_email e1 email db) as [[|u rest]|x] eqn:Sel.
  - destruct (generateEmailBasedLicense email) as [key|];
      [|repeat split; discriminate].
    destruct (insert_user e2 key email db) as [db' [v|y]]; cbn [fst snd].
    + repeat split; reflexivity.
    + destruct (has_code y "23505"); repeat split; discriminate.
  - apply select_users_by_email_ok in Sel as [_ Sel].
    rewrite (Hact u rest Sel). cbn [String.eqb Ascii.eqb Bool.eqb fst snd].
    repeat split; reflexivity.
  - cbn [fst snd]. destruct (has_code x "23505"); repeat split; discriminate.
Qed.

Lemma generate_agrees_with_request_witness :
  fst (post_api_generate_license (up_env 1) (up_env 2) (Some (JStr "test@example.com"))
         (sample_db "active"))
  = fst (post_api_request_license (up_env 1) (up_env 2) (Some "test@example.com")
           (sample_db "active"))
  /\ field "licenseKey"
       (snd (post_api_generate_license (up_env 1) (up_env 2)
               (Some (JStr "test@example.com")) (sample_db "active")))
     = field "licenseKey"
         (snd (post_api_request_license (up_env 1) (up_env 2)
                 (Some "test@example.com") (sample_db "active")))
  /\ (res_status (snd (post_api_generate_license (up_env 1) (up_env 2)
                         (Some (JStr "test@example.com")) (sample_db "active"))) = 200
      <-> res_status (snd (post_api_request_license (up_env 1) (up_env 2)
                             (Some "test@example.com") (sample_db "active"))) = 200).
Proof.
  apply (generate_agrees_with_request (up_env 1) (up_env 2) "test@example.com"
           (sample_db "active")).
  intros u rest H. vm_compute in H. injection H as <- _. reflexivity.
Defined.

(** ** Generation of a license *)

Lemma varchar_active : varchar 50 "active" = Ok "active".
Proof. reflexivity. Qed.

Lemma filter_map_same {A} (p : A -> bool) (f : A -> A) (l : list A) :
  (forall x, p (f x) = p x) -> filter p (map f l) = map f (filter p l).
Proof.
  intros H. induction l as [|a l IH]; cbn; [reflexivity|].
  rewrite H. destruct (p a); cbn; now rewrite IH.
Qed.

(** What the update of [POST /api/generate-license] does to a row. *)
Lemma update_status_rows (en : env) (email : string) (db : database) :
  up en = true -> no_nul email = true ->
  exists f,
    fst (update_status_by_email en "active" email db)
    = with_users db (map f (users db)) (users_id_seq db)
    /\ snd (update_status_by_email en "active" email db) = Ok tt
    /\ (forall r, Users.license_key (f r) = Users.license_key r
                  /\ Users.email (f r) = Users.email r)
    /\ (forall r, Users.email r = email ->
                  Users.status (f r) = "active" /\ Users.updated_at (f r) = now en)
    /\ (forall r, Users.email r <> email -> f r = r).
Proof.
  intros Hup N. unfold update_status_by_email. rewrite Hup, N, varchar_active.
  cbn [no_nul all_chars andb].
  eexists. split; [reflexivity|]. split; [reflexivity|]. repeat split.
  - now destruct (String.eqb (Users.email r) email).
  - now destruct (String.eqb (Users.email r) email).
  - subst. now rewrite String.eqb_refl.
  - subst. now rewrite String.eqb_refl.
  - intros r Hr. now rewrite (string_eqb_false _ _ Hr).
Qed.

(** X11. [POST /api/generate-license] for a valid email whose first row
    is not active (store up) answers "License reactivated" with the key of
    that row, sets every row of the email to active with the current time
    in [updated_at], and leaves the keys and every row of another email as
    they were. *)
Theorem generate_license_reactivates (e1 e2 : env) (email : string) (db : database)
    (u : Users.row) (rest : list Users.row) :
  up e1 = true -> up e2 = true -> emailRegex_test email = true ->
  rows_of_email email db = u :: rest -> Users.status u <> "active" ->
  snd (post_api_generate_license e1 e2 (Some (JStr email)) db)
  = res_json 200 [("success", JBool true);
                  ("message", JStr "License reactivated");
                  ("licenseKey", JStr (Users.license_key u));
                  ("action", JStr "reactivated")]
  /\ map Users.license_key
       (users (fst (post_api_generate_license e1 e2 (Some (JStr email)) db)))
     = map Users.license_key (users db)
  /\ (forall r,
        In r (users (fst (post_api_generate_license e1 e2 (Some (JStr email)) db))) ->
        Users.email r = email ->
        Users.status r = "active" /\ Users.updated_at r = now e2)
  /\ (forall r,
        Users.email r <> email ->
        (In r (users (fst (post_api_generate_license e1 e2 (Some (JStr email)) db)))
         <-> In r (users db))).
Proof.
  intros H1 H2 V R Hs.
  pose proof (valid_email_not_empty _ V) as Ne.
  unfold post_api_generate_license, select_users_by_email.
  unfold rows_of_email in R. destruct (no_nul email) eqn:N; [|discriminate].
  rewrite (string_eqb_false _ _ Ne), V, H1, R, (string_eqb_false _ _ Hs).
  cbn [negb].
  destruct (update_status_rows e2 email db H2 N)
    as (f & Hdb & Hok & Hkeep & Hact & Hoth).
  destruct (update_status_by_email e2 "active" email db) as [db' res].
  cbn [fst snd] in *. subst db' res. cbn [fst snd with_users users].
  split; [reflexivity|]. split; [|split].
  - rewrite map_map. apply map_ext. intros r. apply Hkeep.
  - intros r Hin He. apply in_map_iff in Hin as (r0 & <- & Hin).
    apply Hact. destruct (Hkeep r0) as [_ E]. congruence.
  - intros r Hr. rewrite in_map_iff. split.
    + intros (r0 & <- & Hin). destruct (Hkeep r0) as [_ E].
      rewrite Hoth; [exact Hin|congruence].
    + intros Hin. exists r. split; [now apply Hoth|exact Hin].
Qed.

Lemma generate_license_reactivates_witness :
  snd (post_api_generate_license (up_env 70) (up_env 71)
         (Some (JStr "test@example.com")) (sample_db "inactive"))
  = res_json 200 [("success", JBool true);
                  ("message", JStr "License reactivated");
                  ("licenseKey", JStr sample_key);
                  ("action", JStr "reactivated")].
Proof.
  refine (proj1 (generate_license_reactivates (up_env 70) (up_env 71)
                   "test@example.com" (sample_db "inactive")
                   (sample_user "inactive") [] _ _ _ _ _)).
  - reflexivity.
  - reflexivity.
  - reflexivity.
  - reflexivity.
  - discriminate.
Defined.

Lemma insert_user_ok (en : env) (key email : string) (db db' : database)
    (v : Users.row) :
  all_chars not_blank email = true -> String.length key <= 255 ->
  insert_user en key email db = (db', Ok v) ->
  v = Users.mkRow (S (users_id_seq db)) key email "active" "premium" (now en) (now en)
  /\ db' = with_users db (users db ++ [v]) (S (users_id_seq db)).
Proof.
  intros Hb Lk. unfold insert_user. rewrite (varchar_short _ _ Lk).
  destruct (up en); [|discriminate].
  destruct (no_nul key && no_nul email); [|discriminate].
  destruct (varchar 255 email) as [e|x] eqn:V; [|discriminate].
  apply (varchar_no_blank _ _ _ Hb) in V. subst e.
  destruct (has_key key (users db)); [discriminate|].
  intros [= <- <-]. auto.
Qed.

Lemma generate_license_existing (e1 e2 : env) (email : string) (db : database)
    (u : Users.row) (rest : list Users.row) :
  up e1 = true -> emailRegex_test email = true ->
  rows_of_email email db = u :: rest -> Users.status u = "active" ->
  post_api_generate_license e1 e2 (Some (JStr email)) db
  = (db, existing_license (Users.license_key u)).
Proof.
  intros H1 V R Hs.
  unfold post_api_generate_license, select_users_by_email.
  unfold rows_of_email in R. destruct (no_nul email); [|discriminate].
  rewrite (string_eqb_false _ _ (valid_email_not_empty _ V)), V, H1, R, Hs.
  reflexivity.
Qed.

(** X12. [POST /api/generate-license] is idempotent: when a call
    succeeds, whether it created, reactivated or found the license, the
    next call for the same email (lookup answered by the store) answers
    "License already exists for this email" with the same key and changes
    nothing. *)
Theorem generate_license_twice (e1 e2 e3 e4 : env) (email : string)
    (db db1 : database) (r1 : response) :
  post_api_generate_license e1 e2 (Some (JStr email)) db = (db1, r1) ->
  res_status r1 = 200 -> up e3 = true ->
  exists key,
    field "licenseKey" r1 = Some (JStr key)
    /\ post_api_generate_license e3 e4 (Some (JStr email)) db1
       = (db1, existing_license key).
Proof.
  intros F H200 H3. pose proof F as F0.
  unfold post_api_generate_license in F.
  destruct (String.eqb email ""); [injection F as <- <-; discriminate|].
  destruct (emailRegex_test email) eqn:V; cbn [negb] in F;
    [|injection F as <- <-; discriminate].
  destruct (select_users_by_email e1 email db) as [[|u rest]|x] eqn:Sel.
  - pose proof (select_users_by_email_no_nul _ _ _ _ Sel) as N.
    apply select_users_by_email_ok in Sel as [_ Sel].
    pose proof (generateEmailBasedLicense_total email) as G. rewrite G in F.
    destruct (insert_user e2 (derive_reference email) email db) as [db' [v|y]] eqn:I.
    + injection F as <- <-.
      apply (insert_user_ok _ _ _ _ _ _ (valid_email_no_blank _ V)) in I
        as [Hv ->]; [|rewrite (derived_key_length _ _ G); lia].
      exists (derive_reference email). split; [reflexivity|].
      assert (Users.email v = email) as Ev by (subst v; reflexivity).
      pose proof (rows_of_email_last email db v (S (users_id_seq db)) N Ev) as R.
      rewrite Sel in R. cbn [app] in R.
      rewrite (generate_license_existing e3 e4 email _ v [] H3 V R);
        subst v; reflexivity.
    + injection F as <- <-. destruct (has_code y "23505"); discriminate.
  - pose proof (select_users_by_email_no_nul _ _ _ _ Sel) as N.
    apply select_users_by_email_ok in Sel as [H1 Sel].
    destruct (String.eqb (Users.status u) "active") eqn:A.
    + injection F as <- <-. apply String.eqb_eq in A.
      exists (Users.license_key u). split; [reflexivity|].
      now apply (generate_license_existing e3 e4 email db u rest).
    + destruct (update_status_by_email e2 "active" email db) as [db' [[]|y]] eqn:U.
      * injection F as <- <-. exists (Users.license_key u). split; [reflexivity|].
        assert (up e2 = true) as H2.
        { unfold update_status_by_email in U. destruct (up e2); [reflexivity|discriminate]. }
        destruct (update_status_rows e2 email db H2 N)
          as (f & Hdb & _ & Hkeep & Hact & _).
        rewrite U in Hdb. cbn [fst] in Hdb. subst db'.
        assert (rows_of_email email (with_users db (map f (users db)) (users_id_seq db))
                = f u :: map f rest) as R.
        { rewrite (rows_of_email_filter _ _ N) in Sel.
          rewrite (rows_of_email_filter _ _ N). cbn [with_users users].
          rewrite filter_map_same, Sel; [reflexivity|].
          intros r. destruct (Hkeep r) as [_ E]. now rewrite E. }
        assert (Users.email u = email) as Eu.
        { assert (In u (rows_of_email email db)) as X by (rewrite Sel; now left).
          now apply rows_of_email_in in X. }
        destruct (Hkeep u) as [Ku _]. rewrite <- Ku.
        apply (generate_license_existing e3 e4 email _ (f u) (map f rest) H3 V R).
        now apply Hact.
      * injection F as <- <-. destruct (has_code y "23505"); discriminate.
  - injection F as <- <-. destruct (has_code x "23505"); discriminate.
Qed.

Lemma generate_license_twice_witness :
  exists key,
    field "licenseKey"
      (res_json 200 [("success", JBool true);
                     ("message", JStr "License reactivated");
                     ("licenseKey", JStr sample_key);
                     ("action", JStr "reactivated")]) = Some (JStr key)
    /\ post_api_generate_license (up_env 72) (up_env 73)
         (Some (JStr "test@example.com"))
         (mkDatabase
            [Users.mkRow 1 sample_key "test@example.com" "active" "premium" 10 71]
            1 [] 0)
       = (mkDatabase
            [Users.mkRow 1 sample_key "test@example.com" "active" "premium" 10 71]
            1 [] 0,
          existing_license key).
Proof.
  apply (generate_license_twice (up_env 70) (up_env 71) (up_env 72) (up_env 73)
           "test@example.com" (sample_db "inactive")).
  - vm_compute. reflexivity.
  - reflexivity.
  - reflexivity.
Defined.

(** ** What the routes keep true *)

Lemma insert_user_rows (en : env) (key email : string) (db : database) :
  (users (fst (insert_user en key email db)) = users db
   /\ users_id_seq db <= users_id_seq (fst (insert_user en key email db)))
  \/ exists k e,
       varchar 255 key = Ok k /\ varchar 255 email = Ok e
       /\ fst (insert_user en key email db)
          = with_users db
              (users db ++ [Users.mkRow (S (users_id_seq db)) k e "active" "premium"
                              (now en) (now en)])
              (S (users_id_seq db)).
Proof.
  unfold insert_user. destruct (up en); [|left; auto].
  destruct (no_nul key && no_nul email); [|left; auto].
  destruct (varchar 255 key) as [k|x];
    [|left; destruct (varchar 255 email); cbn; auto].
  destruct (varchar 255 email) as [e|x]; [|left; cbn; auto].
  destruct (has_key k (users db)); [left; cbn; auto|].
  right. eauto.
Qed.

Lemma upsert_user_rows (en : env) (key email : string) (db : database) :
  (users (fst (upsert_user en key email db)) = users db
   /\ users_id_seq db <= users_id_seq (fst (upsert_user en key email db)))
  \/ exists k e,
       varchar 255 key = Ok k /\ varchar 255 email = Ok e
       /\ (fst (upsert_user en key email db)
           = with_users db
               (filter (fun r => negb (has_license_key k r)) (users db)
                ++ map (rebind en k e) (filter (has_license_key k) (users db)))
               (S (users_id_seq db))
           \/ fst (upsert_user en key email db)
              = with_users db
                  (users db ++ [Users.mkRow (S (users_id_seq db)) k e "active"
                                  "premium" (now en) (now en)])
                  (S (users_id_seq db))).
Proof.
  unfold upsert_user. destruct (up en); [|left; auto].
  destruct (no_nul key && no_nul email); [|left; auto].
  destruct (has_arbiter _ _); [|left; auto].
  destruct (varchar 255 key) as [k|x];
    [|left; destruct (varchar 255 email); cbn; auto].
  destruct (varchar 255 email) as [e|x]; [|left; cbn; auto].
  right. exists k, e. destruct (find _ _); auto.
Qed.

Lemma Forall_snoc {A} (P : A -> Prop) (l : list A) (x : A) :
  Forall P l -> P x -> Forall P (l ++ [x]).
Proof. intros Hl Hx. apply Forall_app. auto. Qed.

Lemma Forall_map_same {A} (P : A -> Prop) (f : A -> A) (l : list A) :
  (forall x, P x -> P (f x)) -> Forall P l -> Forall P (map f l).
Proof. intros H. induction 1; cbn; constructor; auto. Qed.

Lemma Forall_filter {A} (P : A -> Prop) (p : A -> bool) (l : list A) :
  Forall P l -> Forall P (filter p l).
Proof.
  induction 1 as [|a l Ha _ IH]; cbn; [constructor|].
  destruct (p a); [constructor|]; auto.
Qed.

Lemma Forall_rebound {A} (P : A -> Prop) (p q : A -> bool) (f : A -> A)
    (l : list A) :
  (forall x, P x -> P (f x)) -> Forall P l ->
  Forall P (filter p l ++ map f (filter q l)).
Proof.
  intros H Hl. apply Forall_app. split.
  - now apply Forall_filter.
  - apply Forall_map_same; [exact H|]. now apply Forall_filter.
Qed.

Lemma rebind_active (en : env) (k e : string) (r : Users.row) :
  active_premium r -> active_premium (rebind en k e r).
Proof.
  unfold rebind, active_premium.
  destruct (String.eqb (Users.license_key r) k); cbn; tauto.
Qed.

Lemma insert_user_active (en : env) (key email : string) (db : database) :
  Forall active_premium (users db) ->
  Forall active_premium (users (fst (insert_user en key email db))).
Proof.
  intros H. destruct (insert_user_rows en key email db)
    as [[-> _]|(k & e & _ & _ & ->)]; [exact H|].
  cbn [with_users users]. apply Forall_snoc; [exact H|]. split; reflexivity.
Qed.

Lemma upsert_user_active (en : env) (key email : string) (db : database) :
  Forall active_premium (users db) ->
  Forall active_premium (users (fst (upsert_user en key email db))).
Proof.
  intros H. destruct (upsert_user_rows en key email db)
    as [[-> _]|(k & e & _ & _ & [->| ->])]; [exact H| |]; cbn [with_users users].
  - apply Forall_rebound; [apply rebind_active|exact H].
  - apply Forall_snoc; [exact H|]. split; reflexivity.
Qed.

Lemma activate_license_route_active (en : env) (licenseKey email : option value)
    (db : database) :
  Forall active_premium (users db) ->
  Forall active_premium (users (fst (activate_license_route en licenseKey email db))).
Proof.
  intros H. unfold activate_license_route.
  destruct licenseKey as [key|], email as [em|]; try exact H.
  destruct (negb (value_truthy key) || negb (value_truthy em)); [exact H|].
  destruct (negb (emailRegex_test (value_string em))); [exact H|].
  pose proof (upsert_user_active en (value_bound key) (value_bound em) db H) as R.
  rewrite <- activateLicense_store in R.
  destruct (activateLicense en key em db) as [db' [u|x]]; [exact R|].
  now destruct (has_code x "23505").
Qed.

Lemma update_active_active (en : env) (email : string) (db : database) :
  Forall active_premium (users db) ->
  Forall active_premium (users (fst (update_status_by_email en "active" email db))).
Proof.
  intros H. unfold update_status_by_email.
  destruct (up en); [|exact H].
  destruct (no_nul "active" && no_nul email); [|exact H]. rewrite varchar_active.
  cbn [fst with_users users]. apply Forall_map_same; [|exact H].
  intros r [Hs Hp]. destruct (String.eqb (Users.email r) email); split; auto.
Qed.

Lemma delete_users_active (en : env) (email : string) (db : database) :
  Forall active_premium (users db) ->
  Forall active_premium (users (fst (delete_users_by_email en email db))).
Proof.
  intros H. unfold delete_users_by_email.
  destruct (up en); [|exact H]. destruct (no_nul email); [|exact H].
  cbn [fst users]. now apply Forall_filter.
Qed.

Lemma request_license_insert_active (en : env) (email : string) (db : database) :
  Forall active_premium (users db) ->
  Forall active_premium (users (fst (request_license_insert en email db))).
Proof.
  intros H. unfold request_license_insert.
  destruct (generateEmailBasedLicense email) as [key|]; [|exact H].
  pose proof (insert_user_active en key email db H) as R.
  now destruct (insert_user en key email db) as [db' [u|x]].
Qed.

(** X13. No route and no webhook event deactivates a license or changes
    its plan: in every store the server produces from the empty tables,
    all rows have status active and plan premium (the subscription
    handlers of the webhook only log). *)
Theorem served_licenses_stay_active (db : database) :
  served db -> Forall active_premium (users db).
Proof.
  induction 1 as [|en k e db _ IH|ev e1 e2 k t d db _ IH|e1 e2 e db _ IH
                  |e1 e2 e db _ IH|en t db _ IH|en e db _ IH
                  |en draw v ty ce db _ IH].
  - constructor.
  - now apply activate_license_route_active.
  - unfold post_api_sync_upload.
    destruct k as [key|], d as [d|]; try exact IH.
    destruct (negb (present (Some key)) || negb (truthy d)); [exact IH|].
    destruct (negb (valid (verifyLicense ev key db))); [exact IH|].
    now destruct (saveUserData_throws e1 e2 key (data_type_or_notes t) d db) as [x ->].
  - unfold post_api_generate_license.
    destruct e as [[| | |em| | |]|]; try exact IH.
    destruct (String.eqb em ""); [exact IH|].
    destruct (negb (emailRegex_test em)); [exact IH|].
    destruct (select_users_by_email e1 em db) as [[|u rest]|x]; [| |exact IH].
    + destruct (generateEmailBasedLicense em) as [key|]; [|exact IH].
      pose proof (insert_user_active e2 key em db IH) as R.
      now destruct (insert_user e2 key em db) as [db' [v|x]].
    + destruct (String.eqb (Users.status u) "active"); [exact IH|].
      pose proof (update_active_active e2 em db IH) as R.
      now destruct (update_status_by_email e2 "active" em db) as [db' [v|x]].
  - unfold post_api_request_license.
    destruct (request_license_lookup e1 e db); [exact IH|].
    now apply request_license_insert_active.
  - destruct t as [e|em|r]; cbn [task_step].
    + now destruct (request_license_lookup en e db).
    + pose proof (request_license_insert_active en em db IH) as R.
      now destruct (request_license_insert en em db).
    + exact IH.
  - unfold post_api_dev_reset_email.
    destruct e as [em|]; [|exact IH].
    destruct (negb (present (Some em))); [exact IH|].
    pose proof (delete_users_active en em db IH) as R.
    now destruct (delete_users_by_email en em db) as [db' [v|x]].
  - unfold post_webhook, handleCheckoutCompleted.
    destruct (negb v); [exact IH|]. cbn [fst].
    destruct (String.eqb ty "checkout.session.completed"); [|exact IH].
    destruct ce as [em|]; [|exact IH].
    destruct (negb (present (Some em))); [exact IH|].
    rewrite activateLicense_strings. now apply upsert_user_active.
Qed.

Lemma served_licenses_stay_active_witness :
  Forall active_premium
    (users (fst (post_webhook (up_env 3) (fun _ => 2) true
                   "customer.subscription.deleted" (Some "test@example.com")
                   (fst (post_api_request_license (up_env 1) (up_env 2)
                           (Some "test@example.com") empty_db))))).
Proof.
  apply served_licenses_stay_active.
  apply served_webhook, served_request, served_empty.
Defined.

(** ** What every statement keeps true *)

Lemma varchar_fits (n : nat) (s s' : string) :
  varchar n s = Ok s' -> String.length s' <= n.
Proof.
  unfold varchar. destruct (String.length s <=? n) eqn:L.
  - intros [= <-]. now apply Nat.leb_le.
  - destruct (all_chars _ _); [|discriminate].
    intros [= <-]. apply substring_prefix_length.
Qed.

Lemma rebind_fits (en : env) (k e : string) (r : Users.row) :
  String.length e <= 255 -> fits_columns r -> fits_columns (rebind en k e r).
Proof.
  unfold rebind, fits_columns. intros He (H1 & H2 & H3).
  destruct (String.eqb (Users.license_key r) k); cbn; [|tauto].
  repeat split; auto. lia.
Qed.

(** X14. The widths of the columns hold in every reachable store: a
    license key and an email have at most 255 characters, a status at most
    50. *)
Theorem reachable_rows_fit_columns (db : database) :
  reachable db -> Forall fits_columns (users db).
Proof.
  induction 1 as [|en q db _ IH]; [constructor|].
  destruct q; cbn [exec].
  - destruct (insert_user_rows en key email db)
      as [[-> _]|(k & e & Hk & He & ->)]; [exact IH|].
    cbn [with_users users]. apply Forall_snoc; [exact IH|].
    apply varchar_fits in Hk, He. repeat split; cbn; auto. lia.
  - destruct (upsert_user_rows en key email db)
      as [[-> _]|(k & e & Hk & He & [->| ->])]; [exact IH| |];
      cbn [with_users users]; apply varchar_fits in Hk, He.
    + apply Forall_rebound; [|exact IH]. intros r. now apply rebind_fits.
    + apply Forall_snoc; [exact IH|]. repeat split; cbn; auto. lia.
  - unfold update_status_by_email. destruct (up en); [|exact IH].
    destruct (no_nul st && no_nul email); [|exact IH].
    destruct (varchar 50 st) as [st'|x] eqn:V; [|exact IH].
    apply varchar_fits in V. cbn [fst with_users users].
    apply Forall_map_same; [|exact IH].
    intros r (H1 & H2 & H3). unfold fits_columns.
    destruct (String.eqb (Users.email r) email); cbn; auto.
  - unfold delete_users_by_email. destruct (up en); [|exact IH].
    destruct (no_nul email); [|exact IH].
    cbn [fst users]. now apply Forall_filter.
  - now rewrite upsert_user_data_keeps_users.
Qed.

Lemma reachable_rows_fit_columns_witness :
  Forall fits_columns
    (users (exec (up_env 1)
              (UpsertUser "AAAA-AAAA-AAAA-AAAA     " "test@example.com") empty_db)).
Proof.
  apply reachable_rows_fit_columns. apply reachable_exec, reachable_empty.
Defined.

Lemma ids_snoc (db : database) (r : Users.row) :
  ids_from_sequence db -> Users.id r = S (users_id_seq db) ->
  ids_from_sequence (with_users db (users db ++ [r]) (S (users_id_seq db))).
Proof.
  intros [Hn Hb] Hid. unfold ids_from_sequence. cbn [with_users users users_id_seq].
  split.
  - rewrite map_app. cbn [map]. apply NoDup_snoc; [exact Hn|].
    intros Hin. apply in_map_iff in Hin as (x & Hx & Hin).
    rewrite Forall_forall in Hb. specialize (Hb x Hin). lia.
  - apply Forall_snoc.
    + eapply Forall_impl; [|exact Hb]. cbn. intros x Hx. lia.
    + lia.
Qed.

Lemma ids_map (db : database) (f : Users.row -> Users.row) (seq : nat) :
  ids_from_sequence db -> (forall r, Users.id (f r) = Users.id r) ->
  users_id_seq db <= seq ->
  ids_from_sequence (with_users db (map f (users db)) seq).
Proof.
  intros [Hn Hb] Hf Hs. unfold ids_from_sequence. cbn [with_users users users_id_seq].
  split.
  - rewrite map_map. erewrite map_ext; [exact Hn|]. intros r. apply Hf.
  - rewrite Forall_map. eapply Forall_impl; [|exact Hb].
    cbn. intros r Hr. rewrite Hf. lia.
Qed.

(** The rows of an upsert that meets a conflict keep their ids. *)
Lemma ids_rebound (en : env) (k e : string) (db : database) :
  ids_from_sequence db ->
  ids_from_sequence
    (with_users db
       (filter (fun r => negb (has_license_key k r)) (users db)
        ++ map (rebind en k e) (filter (has_license_key k) (users db)))
       (S (users_id_seq db))).
Proof.
  intros [Hn Hb]. unfold ids_from_sequence. cbn [with_users users users_id_seq].
  assert (forall r, Users.id (rebind en k e r) = Users.id r) as Hid.
  { intros r. unfold rebind. now destruct (String.eqb (Users.license_key r) k). }
  split.
  - apply (Permutation_NoDup (l := map Users.id (users db))); [|exact Hn].
    apply Permutation_sym. rewrite map_app, map_map.
    rewrite (map_ext _ _ Hid), <- map_app.
    apply Permutation_map, filter_split.
  - apply Forall_rebound.
    + intros r Hr. rewrite Hid. exact Hr.
    + eapply Forall_impl; [|exact Hb]. cbn. intros r Hr. lia.
Qed.

Lemma ids_same_rows (db db' : database) :
  ids_from_sequence db -> users db' = users db ->
  users_id_seq db <= users_id_seq db' -> ids_from_sequence db'.
Proof.
  intros [Hn Hb] Hu Hs. unfold ids_from_sequence. rewrite Hu. split; [exact Hn|].
  eapply Forall_impl; [|exact Hb]. cbn. intros r Hr. lia.
Qed.

Lemma NoDup_ids_filter (keep : Users.row -> bool) (rows : list Users.row) :
  NoDup (map Users.id rows) -> NoDup (map Users.id (filter keep rows)).
Proof.
  induction rows as [|r rows IH]; cbn; intros H; [constructor|].
  inversion H as [|? ? Hr Hrows]; subst.
  destruct (keep r); [|now apply IH].
  cbn. constructor; [|now apply IH].
  intros Hin. apply Hr. apply in_map_iff in Hin as (x & Hx & Hin).
  apply filter_In in Hin as [Hin _]. apply in_map_iff. eauto.
Qed.

(** X15. The serial primary key is never violated: in every reachable
    store the ids of the licenses are distinct, start at 1, and none
    exceeds the last value of the sequence, which never goes back. *)
Theorem reachable_ids_from_sequence (db : database) :
  reachable db -> ids_from_sequence db.
Proof.
  induction 1 as [|en q db _ IH]; [split; constructor|].
  destruct q; cbn [exec].
  - destruct (insert_user_rows en key email db)
      as [[Hu Hs]|(k & e & _ & _ & ->)];
      [now apply (ids_same_rows db)|now apply ids_snoc].
  - destruct (upsert_user_rows en key email db)
      as [[Hu Hs]|(k & e & _ & _ & [->| ->])];
      [now apply (ids_same_rows db)|now apply ids_rebound|now apply ids_snoc].
  - unfold update_status_by_email. destruct (up en); [|exact IH].
    destruct (no_nul st && no_nul email); [|exact IH].
    destruct (varchar 50 st) as [st'|x]; [|exact IH]. cbn [fst].
    apply ids_map; [exact IH| |lia].
    intros r. now destruct (String.eqb (Users.email r) email).
  - unfold delete_users_by_email. destruct (up en); [|exact IH].
    destruct (no_nul email); [|exact IH].
    destruct IH as [Hn Hb]. split; cbn [fst users users_id_seq].
    + now apply NoDup_ids_filter.
    + now apply Forall_filter.
  - apply (ids_same_rows db); [exact IH| |].
    + apply upsert_user_data_keeps_users.
    + destruct (upsert_user_data_refused en key dtype c db) as [x ->]. cbn. lia.
Qed.

Lemma reachable_ids_from_sequence_witness :
  ids_from_sequence
    (exec (up_env 2) (InsertUser "BBBB-BBBB-BBBB-BBBB" "b@example.com")
       (exec (up_env 1) (DeleteUsersByEmail "test@example.com")
          (exec (up_env 1) (InsertUser sample_key "test@example.com") empty_db))).
Proof.
  apply reachable_ids_from_sequence.
  do 3 apply reachable_exec. apply reachable_empty.
Defined.

(** ** Writes that fail, and writes that touch one key *)

(** An activation that fails with a key that is a string has written
    nothing. *)
Lemma activateLicense_failed (en : env) (licenseKey email : value) (db db' : database)
    (x : exn) :
  is_string licenseKey = true ->
  activateLicense en licenseKey email db = (db', Throw x) -> users db' = users db.
Proof.
  intros Hs. unfold activateLicense, upsert_user. rewrite Hs.
  destruct (up en); [|now intros [= <- _]].
  destruct (no_nul _ && no_nul _); [|now intros [= <- _]].
  destruct (has_arbiter _ _); [|now intros [= <- _]].
  destruct (varchar 255 (value_bound licenseKey)) as [k|y];
    [|destruct (varchar 255 (value_bound email)); now intros [= <- _]].
  destruct (varchar 255 (value_bound email)) as [e|y]; [|now intros [= <- _]].
  destruct (find _ _); discriminate.
Qed.

(** X16. The routes that write licenses write nothing when they fail: a
    response other than 200 from generate-license or request-license
    leaves the rows of [users] as they were, and so does one from
    activate-license when [licenseKey] is a string.  For a [licenseKey]
    that is not a string, activate-license answers 500 "Failed to
    activate license" whenever the store has accepted the upsert, whose
    row stays written. *)
Theorem failed_writes_change_no_row (en e1 e2 : env) (licenseKey email : option value)
    (body : option json) (request : option string) (db : database) :
  (res_status (snd (activate_license_route en licenseKey email db)) = 200
   \/ users (fst (activate_license_route en licenseKey email db)) = users db
   \/ exists key em u,
        licenseKey = Some key /\ email = Some em /\ is_string key = false
        /\ upsert_user en (value_bound key) (value_bound em) db
           = (fst (activate_license_route en licenseKey email db), Ok u)
        /\ snd (activate_license_route en licenseKey email db)
           = res_json 500 [("success", JBool false);
                           ("error", JStr "Failed to activate license")])
  /\ (res_status (snd (post_api_generate_license e1 e2 body db)) = 200
      \/ users (fst (post_api_generate_license e1 e2 body db)) = users db)
  /\ (res_status (snd (post_api_request_license e1 e2 request db)) = 200
      \/ users (fst (post_api_request_license e1 e2 request db)) = users db).
Proof.
  split; [|split].
  - unfold activate_license_route.
    destruct licenseKey as [key|], email as [em|]; try (right; now left).
    destruct (negb (value_truthy key) || negb (value_truthy em)); [right; now left|].
    destruct (negb (emailRegex_test (value_string em))); [right; now left|].
    destruct (is_string key) eqn:Hs.
    + destruct (activateLicense en key em db) as [db' [u|x]] eqn:A; [now left|].
      right. left. apply (activateLicense_failed _ _ _ _ _ _ Hs) in A.
      now destruct (has_code x "23505").
    + unfold activateLicense. rewrite Hs.
      destruct (upsert_user en (value_bound key) (value_bound em) db)
        as [db' [u|x]] eqn:U.
      * right. right. exists key, em, u. cbn [fst snd has_code error_code].
        repeat split; auto.
      * right. left.
        assert (activateLicense en (Str (value_bound key)) em db = (db', Throw x)) as A
          by (unfold activateLicense; cbn [value_bound is_string]; now rewrite U).
        apply activateLicense_failed in A; [|reflexivity].
        now destruct (has_code x "23505").
  - unfold post_api_generate_license.
    destruct body as [[| | |em| | |]|]; try (now right).
    destruct (String.eqb em ""); [now right|].
    destruct (negb (emailRegex_test em)); [now right|].
    destruct (select_users_by_email e1 em db) as [[|u rest]|x]; [| |now right].
    + destruct (generateEmailBasedLicense em) as [key|]; [|now right].
      unfold insert_user. destruct (up e2); [|now right].
      destruct (no_nul key && no_nul em); [|now right].
      destruct (varchar 255 key), (varchar 255 em); try (now right).
      destruct (has_key _ _); [now right|now left].
    + destruct (String.eqb (Users.status u) "active"); [now right|].
      unfold update_status_by_email. destruct (up e2); [|now right].
      destruct (no_nul "active" && no_nul em); [|now right].
      destruct (varchar 50 "active"); [now left|now right].
  - unfold post_api_request_license, request_license_insert.
    destruct (request_license_lookup e1 request db) as [r|em]; [now right|].
    destruct (generateEmailBasedLicense em) as [key|]; [|now right].
    unfold insert_user. destruct (up e2); [|now right].
    destruct (no_nul key && no_nul em); [|now right].
    destruct (varchar 255 key), (varchar 255 em); try (now right).
    destruct (has_key _ _); [now right|now left].
Qed.

(** A number as [licenseKey]: the row is written and the answer is 500. *)
Example activate_number_writes_then_fails :
  activate_license_route (up_env 60) (Some (Other true "12345" "12345"))
    (Some (Str "test@example.com")) empty_db
  = (mkDatabase [Users.mkRow 1 "12345" "test@example.com" "active" "premium" 60 60]
       1 [] 0,
     res_json 500 [("success", JBool false);
                   ("error", JStr "Failed to activate license")]).
Proof. reflexivity. Qed.

(** X17. [POST /api/activate-license] touches the row of its key only:
    whatever the request (key of at most 255 characters) and whatever the
    store answers, every row with another license key is in the store
    afterwards exactly when it was before. *)
Theorem activate_touches_only_its_key (en : env) (key : string)
    (email : option string) (db : database) (r : Users.row) :
  String.length key <= 255 -> Users.license_key r <> key ->
  (In r (users (fst (post_api_activate_license en (Some key) email db)))
   <-> In r (users db)).
Proof.
  intros Lk Hr. unfold post_api_activate_license, activate_license_route.
  destruct email as [em|]; [|reflexivity]. cbn [option_map].
  destruct (negb (value_truthy (Str key)) || negb (value_truthy (Str em)));
    [reflexivity|].
  destruct (negb (emailRegex_test (value_string (Str em)))); [reflexivity|].
  rewrite activateLicense_strings.
  assert (In r (users (fst (upsert_user en key em db))) <-> In r (users db)) as G.
  { destruct (upsert_user_rows en key em db)
      as [[-> _]|(k & e & Hk & _ & [->| ->])]; [reflexivity| |];
      rewrite (varchar_short _ _ Lk) in Hk; injection Hk as <-;
      cbn [with_users users].
    - assert (has_license_key key r = false) as Hf
        by (unfold has_license_key; now apply String.eqb_neq).
      rewrite in_app_iff, filter_In, in_map_iff, Hf. cbn [negb]. split.
      + intros [[H _]|(r0 & <- & Hin)]; [exact H|].
        apply filter_In in Hin as [_ Hin]. unfold has_license_key in Hin.
        exfalso. apply Hr. unfold rebind. rewrite Hin.
        now apply String.eqb_eq in Hin.
      + auto.
    - rewrite in_app_iff. cbn. split; [|tauto].
      intros [H|[<-|[]]]; [exact H|]. now destruct Hr. }
  destruct (upsert_user en key em db) as [db' [u|x]]; [exact G|].
  now destruct (has_code x "23505").
Qed.

Lemma activate_touches_only_its_key_witness :
  In (sample_user "active")
     (users (fst (post_api_activate_license (up_env 60) (Some "AAAA-BBBB-CCCC-DDDD")
                    (Some "other@example.org") (sample_db "active"))))
  <-> In (sample_user "active") (users (sample_db "active")).
Proof.
  apply (activate_touches_only_its_key (up_env 60) "AAAA-BBBB-CCCC-DDDD"
           (Some "other@example.org") (sample_db "active") (sample_user "active")).
  - cbn. lia.
  - discriminate.
Defined.

(** ** The webhook *)

(** X18. A verified webhook event is always acknowledged with 200
    [received: true], also when the store is down or refuses the license;
    the store changes only for a checkout-completed event with a customer
    email while the store is up.  An unverified event is answered 400 and
    changes nothing. *)
Theorem webhook_always_acknowledged (en : env) (draw : nat -> nat)
    (event_type : string) (customerEmail : option string) (db : database) :
  snd (post_webhook en draw true event_type customerEmail db)
  = res_json 200 [("received", JBool true)]
  /\ (fst (post_webhook en draw true event_type customerEmail db) = db
      \/ (up en = true /\ event_type = "checkout.session.completed"
          /\ present customerEmail = true))
  /\ fst (post_webhook en draw false event_type customerEmail db) = db
  /\ res_status (snd (post_webhook en draw false event_type customerEmail db)) = 400.
Proof.
  unfold post_webhook. cbn [negb fst snd res_status].
  split; [reflexivity|]. split; [|auto].
  destruct (String.eqb_spec event_type "checkout.session.completed") as [E|E];
    [|now left].
  unfold handleCheckoutCompleted.
  destruct customerEmail as [em|]; [|now left].
  destruct (present (Some em)) eqn:P; cbn [negb]; [|now left].
  rewrite activateLicense_strings. unfold upsert_user.
  destruct (up en); [right; auto|now left].
Qed.

Example webhook_during_outage :
  post_webhook (down_env 5) (fun _ => 0) true "checkout.session.completed"
    (Some "test@example.com") empty_db
  = (empty_db, res_json 200 [("received", JBool true)]).
Proof. reflexivity. Qed.

(** ** Random keys *)

(** The position of a character in the alphabet of random keys. *)
Lemma charAt_alphabet_index (n : nat) :
  n < 36 ->
  String.index 0 (Js.charAt license_alphabet n) license_alphabet = Some n.
Proof.
  intros H.
  do 36 (destruct n as [|n]; [reflexivity|]).
  lia.
Qed.

Lemma charAt_alphabet_inj (n m : nat) :
  n < 36 -> m < 36 ->
  Js.charAt license_alphabet n = Js.charAt license_alphabet m -> n = m.
Proof.
  intros Hn Hm E.
  pose proof (charAt_alphabet_index n Hn) as In.
  rewrite E, (charAt_alphabet_index m Hm) in In. now injection In.
Qed.

(** X19. [generateLicenseKey] loses nothing of its sixteen draws: two
    runs give the same key only when all sixteen draws are the same. *)
Theorem generateLicenseKey_injective (draw1 draw2 : nat -> nat) :
  (forall i, draw1 i < 36) -> (forall i, draw2 i < 36) ->
  generateLicenseKey draw1 = generateLicenseKey draw2 ->
  forall i, i < 16 -> draw1 i = draw2 i.
Proof.
  intros H1 H2. unfold generateLicenseKey.
  cbn [generateLicenseKey_from Nat.ltb Nat.leb Nat.modulo Nat.divmod Nat.eqb
       andb fst snd Nat.sub].
  assert (forall i, exists c1 c2,
             Js.charAt license_alphabet (draw1 i) = String c1 ""
             /\ Js.charAt license_alphabet (draw2 i) = String c2 ""
             /\ (c1 = c2 -> draw1 i = draw2 i)) as C.
  { intros i.
    destruct (charAt_alphabet (draw1 i) (H1 i)) as (c1 & E1 & _).
    destruct (charAt_alphabet (draw2 i) (H2 i)) as (c2 & E2 & _).
    exists c1, c2. repeat split; auto. intros <-.
    apply charAt_alphabet_inj; auto. congruence. }
  repeat match goal with
         | |- context [Js.charAt license_alphabet (draw1 ?i)] =>
             let c1 := fresh "a" in
             let c2 := fresh "b" in
             let E1 := fresh "E" in
             let E2 := fresh "F" in
             let I := fresh "I" in
             destruct (C i) as (c1 & c2 & E1 & E2 & I);
             rewrite E1, E2; clear E1 E2
         end.
  cbn [append]. intros K. injection K as K0 K1 K2 K3 K4 K5 K6 K7 K8 K9 K10 K11 K12
    K13 K14 K15.
  intros i Hi.
  do 16 (destruct i as [|i]; [auto|]).
  lia.
Qed.

Lemma generateLicenseKey_injective_witness :
  (fun i => i mod 36) 5 = (fun i => if i <? 16 then i else 0) 5.
Proof.
  apply (generateLicenseKey_injective (fun i => i mod 36)
           (fun i => if i <? 16 then i else 0)).
  - intros i. apply Nat.mod_upper_bound. lia.
  - intros i. destruct (Nat.ltb_spec i 16); lia.
  - vm_compute. reflexivity.
  - lia.
Defined.

(** ** Interleaved requests for any emails *)

Lemma open_tasks_set_nth (tasks : list task) :
  forall i t t', nth_error tasks i = Some t ->
                 open_tasks (set_nth i t' tasks) + opens t = open_tasks tasks + opens t'.
Proof.
  unfold open_tasks, opens.
  induction tasks as [|a tasks IH]; intros [|i] t t' H; cbn in H; try discriminate.
  - injection H as ->. cbn. destruct (is_open t), (is_open t'); cbn; lia.
  - specialize (IH i t t' H). cbn. destruct (is_open a); cbn; lia.
Qed.

(** A step leaves the rows alone, or appends the active row of a request
    that is thereby answered. *)
Lemma task_step_appends (en : env) (t : task) (db : database) :
  (users (fst (task_step en t db)) = users db
   /\ opens (snd (task_step en t db)) <= opens t)
  \/ (exists u, users (fst (task_step en t db)) = users db ++ [u]
                /\ active_premium u)
     /\ opens t = 1 /\ opens (snd (task_step en t db)) = 0.
Proof.
  destruct t as [e|em|r]; cbn [task_step].
  - left. destruct (request_license_lookup en e db); cbn; auto.
  - unfold request_license_insert.
    destruct (generateEmailBasedLicense em) as [key|]; [|left; cbn; auto].
    destruct (insert_user_rows en key em db) as [[Hu _]|(k & e & _ & _ & Hdb)];
      destruct (insert_user en key em db) as [db' [u|x]]; cbn [fst snd] in *.
    + left. cbn. auto.
    + left. cbn. auto.
    + right. subst db'. cbn [with_users users]. repeat split; eauto.
      eexists. split; [reflexivity|]. split; reflexivity.
    + right. subst db'. cbn [with_users users]. repeat split; eauto.
      eexists. split; [reflexivity|]. split; reflexivity.
  - left. cbn. auto.
Qed.

(** X20. Requests for licenses only append: whatever the emails and the
    schedule, the rows that were in [users] stay first and unchanged, the
    rows added are active, and there are at most as many of them as
    requests answered along the way. *)
Theorem run_only_appends (schedule : list (nat * env)) :
  forall (tasks : list task) (db : database),
  exists added,
    users (fst (run schedule tasks db)) = users db ++ added
    /\ Forall active_premium added
    /\ List.length added + open_tasks (snd (run schedule tasks db))
       <= open_tasks tasks.
Proof.
  induction schedule as [|[i en] rest IH]; intros tasks db; cbn [run].
  - exists []. rewrite app_nil_r. cbn. auto.
  - destruct (nth_error tasks i) as [t|] eqn:Hn; [|apply IH].
    pose proof (task_step_appends en t db) as S.
    pose proof (fun t' => open_tasks_set_nth tasks i t t' Hn) as O.
    destruct (task_step en t db) as [db' t']. cbn [fst snd] in S.
    specialize (O t').
    destruct (IH (set_nth i t' tasks) db') as (added & Hu & Ha & Hl).
    destruct S as [[Hs Ho]|[(u & Hs & Hact) [Ho Ho']]]; rewrite Hs in Hu.
    + exists added. repeat split; auto. lia.
    + exists (u :: added). rewrite <- app_assoc in Hu. cbn [app] in Hu.
      repeat split; auto. cbn [List.length]. lia.
Qed.

Example run_two_emails :
  map Users.email
      (users (fst (run [(0, up_env 1); (1, up_env 2); (1, up_env 3); (0, up_env 4)]
                     [Arrived (Some "a@example.com"); Arrived (Some "b@example.com")]
                     (sample_db "active"))))
  = ["test@example.com"; "b@example.com"; "a@example.com"].
Proof. vm_compute. reflexivity. Qed.
